(** * tg-news-bot: the policy engine and cycle orchestrator of [main.py]

    A shallow embedding of [main.py] and the properties of its
    scheduling-and-policy core: night mode, the rolling daily cap, the
    per-domain cap, the dedup ledger and the per-cycle orchestration.

    Conventions of the embedding.
    - Python [int] is [Z]; Python [str] is [string], one [ascii] per character.
    - The process talks to a clock, a file system, a feed parser, the Telegram
      API and an SQLite file.  All of them are gathered in one record of
      oracles, [Env], indexed by the number of interactions made so far; the
      program state [World] carries that counter, the [sent_items] table and
      the trace of effects performed.
    - A Python exception is the [Raised] outcome of a computation; the world
      reached when it was raised is kept, as [try/except] needs.
    - What the libraries compute is read from the environment as well: the
      SHA-256 digest, the host found by [urlparse], the regular expressions
      of [clean_text], and the case mappings [s.lower()] and [s.upper()]. *)

From Stdlib Require Import ZArith List String Ascii Bool Lia.
Import ListNotations.
Local Open Scope string_scope.
Local Open Scope list_scope.
Local Open Scope Z_scope.

(** ** Configuration (module-level constants read from the environment) *)

Record Config := mkConfig {
  SOURCES_FILE : string;
  MAX_POSTS_PER_RUN : Z;
  DAILY_MAX_POSTS : Z;
  DOMAIN_MAX_PER_24H : Z;
  NIGHT_START_HOUR : Z;
  NIGHT_END_HOUR : Z
}.

(** ** Strings *)

(** [not s] for a Python string. *)
Definition str_empty (s : string) : bool :=
  match s with EmptyString => true | String _ _ => false end.

(** [a or b] on strings. *)
Definition str_or (a b : string) : string := if str_empty a then b else a.

Definition lower_char (c : ascii) : ascii :=
  let n := nat_of_ascii c in
  if andb (Nat.leb 65 n) (Nat.leb n 90) then ascii_of_nat (n + 32) else c.

Definition upper_char (c : ascii) : ascii :=
  let n := nat_of_ascii c in
  if andb (Nat.leb 97 n) (Nat.leb n 122) then ascii_of_nat (n - 32) else c.

Fixpoint str_map (f : ascii -> ascii) (s : string) : string :=
  match s with
  | EmptyString => EmptyString
  | String c r => String (f c) (str_map f r)
  end.

(** Case mappings that move the ASCII letters only.  They are not the
    program's [s.lower()] and [s.upper()], which follow the case mapping of
    the interpreter and are read from the environment (see [lower] and
    [upper] below); they give the example environments a case mapping that
    is right on ASCII text. *)
Definition ascii_lower (s : string) : string := str_map lower_char s.
Definition ascii_upper (s : string) : string := str_map upper_char s.

(** [a in b] on strings: [a] occurs in [b] as a contiguous run. *)
Fixpoint str_contains (a b : string) : bool :=
  if String.prefix a b then true
  else match b with
       | EmptyString => false
       | String _ r => str_contains a r
       end.

(** [s.replace(old, new)] for a one-character [old]. *)
Fixpoint replace_char (old : ascii) (new : string) (s : string) : string :=
  match s with
  | EmptyString => EmptyString
  | String c r =>
      if Ascii.eqb c old then (new ++ replace_char old new r)%string
      else String c (replace_char old new r)
  end.

Definition escape_html_text (s : string) : string :=
  if str_empty s then ""
  else
    let s := replace_char "&"%char "&amp;" s in
    let s := replace_char "<"%char "&lt;" s in
    let s := replace_char ">"%char "&gt;" s in
    s.

(** [s[:n]] for [n >= 0]. *)
Definition str_take (n : nat) (s : string) : string := String.substring 0 n s.

(** Lines 268-269 of [process_source]:
    [if len(summary) > 300: summary = summary[:297] + "..."]. *)
Definition truncate_summary (summary : string) : string :=
  if (300 <? Z.of_nat (String.length summary))
  then (str_take 297 summary ++ "...")%string
  else summary.

(** ** Night mode *)

(** The body of [in_night_mode] after [h = datetime.now().hour] is read. *)
Definition night_window (start end_ h : Z) : bool :=
  if start <? end_
  then andb (start <=? h) (h <? end_)
  else orb (start <=? h) (h <? end_).

(** ** The ledger: table [sent_items] *)

(** Timestamps.  [now_utc().isoformat()] is stored as TEXT and compared as
    TEXT; the text order of such strings is the order of the instants they
    denote, so an instant is kept as its number of microseconds. *)
Definition instant := Z.

Definition hours24 : Z := 24 * 3600 * 1000000.

Record Row := mkRow {
  url_hash : string;
  row_url : string;
  row_domain : string;
  row_title : string;
  ts : instant
}.

Definition Table := list Row.

Definition has_key (h : string) (t : Table) : bool :=
  existsb (fun r => String.eqb (url_hash r) h) t.

(** [INSERT OR IGNORE INTO sent_items ...] under [url_hash TEXT PRIMARY KEY]. *)
Definition insert_or_ignore (r : Row) (t : Table) : Table :=
  if has_key (url_hash r) t then t else t ++ [r].

(** [SELECT COUNT( * ) FROM sent_items WHERE ts >= ?]. *)
Definition count_since (cutoff : instant) (t : Table) : Z :=
  Z.of_nat (List.length (filter (fun r => cutoff <=? ts r) t)).

(** [SELECT COUNT( * ) FROM sent_items WHERE domain = ? AND ts >= ?]. *)
Definition count_domain_since (domain : string) (cutoff : instant) (t : Table) : Z :=
  Z.of_nat (List.length
    (filter (fun r => andb (String.eqb (row_domain r) domain) (cutoff <=? ts r)) t)).

(** The rows stored under one key, and the primary-key constraint. *)
Definition entries_for (h : string) (t : Table) : nat :=
  List.length (filter (fun r => String.eqb (url_hash r) h) t).

Definition pk_unique (t : Table) : Prop := NoDup (map url_hash t).

(** ** Values read from the outside *)

(** A document as [yaml.safe_load] returns it: null, booleans, integers,
    strings, lists and mappings (the other scalar kinds, floats and dates,
    are left out; the loader has no case of its own for them). *)
#[local] Set Warnings "-register-all".
Inductive yaml :=
| YNull
| YBool (b : bool)
| YInt (n : Z)
| YStr (s : string)
| YSeq (items : list yaml)
| YMap (pairs : list (yaml * yaml)).

(** What [os.path.exists], [open] and [yaml.safe_load] make of the path. *)
Inductive FileState :=
| FileMissing
| FileUnreadable
| FileYamlError
| FileDoc (doc : yaml).

(** One element of [feedparser.parse(url).entries]; [None] is an absent key. *)
Record RawEntry := mkRaw {
  raw_link : option string;
  raw_id : option string;
  raw_title : option string;
  raw_summary : option string;
  raw_published : option string
}.

(** The answer of [sess.post]: status 200, status 429 with the
    [retry_after] of its JSON body when it has one, another status, or an
    exception of the HTTP client. *)
Inductive Response :=
| Status200
| Status429 (retry_after : option Z)
| StatusOther
| PostFailed.

(** [urlparse(url).hostname], or the exception [urlparse] raised. *)
Inductive UrlParse :=
| UrlRaises
| UrlHostname (h : option string).

Record Env := mkEnv {
  local_hour : nat -> Z;
  utc_now : nat -> instant;
  sources_file : nat -> string -> FileState;
  feedparser_parse : nat -> yaml -> option (list RawEntry);
  telegram_post : nat -> string -> Response;
  sqlite_fails : nat -> bool;
  sha256_hex : string -> string;
  urlparse_hostname : string -> UrlParse;
  clean_nonempty : string -> string;
  str_lower : string -> string;
  str_upper : string -> string
}.

(** [s.lower()] and [s.upper()].  The case mapping of a string that is not
    empty is the interpreter's, over every cased character, and is read from
    the environment; the empty string is its own lower and upper case. *)
Definition lower (env : Env) (s : string) : string :=
  if str_empty s then "" else str_lower env s.

Definition upper (env : Env) (s : string) : string :=
  if str_empty s then "" else str_upper env s.

(** ** Program state, effects and exceptions *)

Inductive exn :=
| OSError
| YAMLError
| AttributeError
| TypeError
| FeedError
| SqliteError.

Inductive Sql :=
| SqlExists (h : string)
| SqlInsert (r : Row)
| SqlCount (cutoff : instant)
| SqlCountDomain (domain : string) (cutoff : instant).

Inductive Delay :=
| MinDelay
| Cooldown5
| RetryAfterPlus1 (retry_after : Z).

Inductive LogMsg :=
| JobStarted
| SourcesNotFound (path : string)
| NoSourcesLoaded (path : string)
| NightSkipJob
| DailyTargetReached (n : Z)
| NightSkipPosting
| DailyLimitReached (n : Z)
| DomainSkip (url domain : string) (n : Z)
| FetchFailed (url : yaml)
| RateLimited (retry_after : Z)
| FailedAfterRetry
| SendFailed
| ErrorProcessing (url : yaml) (e : exn)
| JobFinished (posts_remaining : Z).

Inductive Level := INFO | WARNING | ERROR.

Inductive Event :=
| EvFetch (url : yaml)
| EvSql (q : Sql)
| EvPost (text : string)
| EvSleep (d : Delay)
| EvLog (lvl : Level) (m : LogMsg).

Record World := mkWorld {
  sent_items : Table;
  steps : nat;
  trace : list Event
}.

Inductive outcome (A : Type) :=
| Ret (a : A)
| Raised (e : exn).
Arguments Ret {A} a.
Arguments Raised {A} e.

Definition M (A : Type) : Type := World -> outcome A * World.

Definition ret {A} (a : A) : M A := fun w => (Ret a, w).

Definition raise {A} (e : exn) : M A := fun w => (Raised e, w).

Definition bind {A B} (m : M A) (k : A -> M B) : M B :=
  fun w =>
    match m w with
    | (Ret a, w') => k a w'
    | (Raised e, w') => (Raised e, w')
    end.

(** [try: m  except Exception as ex: ...]: the outcome becomes a value. *)
Definition try_ {A} (m : M A) : M (outcome A) :=
  fun w => let (o, w') := m w in (Ret o, w').

Notation "x <- c1 ;; c2" := (bind c1 (fun x => c2))
  (at level 61, c1 at next level, right associativity).
Notation "c1 ;; c2" := (bind c1 (fun _ => c2))
  (at level 61, right associativity).

Definition emit (ev : Event) : M unit :=
  fun w => (Ret tt, mkWorld (sent_items w) (steps w) (trace w ++ [ev])).

(** One interaction with the outside: the oracle is read at the current
    step, and the step counter advances. *)
Definition ask {A} (oracle : nat -> A) : M A :=
  fun w => (Ret (oracle (steps w)), mkWorld (sent_items w) (S (steps w)) (trace w)).

Definition log (lvl : Level) (m : LogMsg) : M unit := emit (EvLog lvl m).

Definition sleep (d : Delay) : M unit := emit (EvSleep d).

(** ** Python's view of the loaded document *)

(** Truth value of a document, as [not x] and [x or y] use it. *)
Definition truthy (v : yaml) : bool :=
  match v with
  | YNull => false
  | YBool b => b
  | YInt n => negb (n =? 0)
  | YStr s => negb (str_empty s)
  | YSeq items => match items with [] => false | _ :: _ => true end
  | YMap pairs => match pairs with [] => false | _ :: _ => true end
  end.

(** [a or b]. *)
Definition py_or (a b : yaml) : yaml := if truthy a then a else b.

Definition key_is (k : string) (y : yaml) : bool :=
  match y with YStr s => String.eqb s k | _ => false end.

Fixpoint lookup (k : string) (pairs : list (yaml * yaml)) : yaml :=
  match pairs with
  | [] => YNull
  | (k', v) :: rest => if key_is k k' then v else lookup k rest
  end.

(** [d.get(k)]: only a mapping has the method. *)
Definition py_get (d : yaml) (k : string) : M yaml :=
  match d with
  | YMap pairs => ret (lookup k pairs)
  | _ => raise AttributeError
  end.

Fixpoint chars_of (s : string) : list yaml :=
  match s with
  | EmptyString => []
  | String c r => YStr (String c EmptyString) :: chars_of r
  end.

(** [for s in v]: lists yield their items, mappings their keys, strings
    their characters; nothing else is iterable. *)
Definition py_iter (v : yaml) : M (list yaml) :=
  match v with
  | YSeq items => ret items
  | YMap pairs => ret (map fst pairs)
  | YStr s => ret (chars_of s)
  | _ => raise TypeError
  end.

(** [v.upper()]: only a string has the method. *)
Definition py_upper (env : Env) (v : yaml) : M string :=
  match v with
  | YStr s => ret (upper env s)
  | _ => raise AttributeError
  end.

(** An element of the list [load_sources_from_yaml] returns. *)
Record Source := mkSource {
  src_url : yaml;
  src_tag : string
}.

(** An element of the list [fetch_feed_entries] returns. *)
Record Entry := mkEntry {
  title : string;
  summary : string;
  url : string;
  published : string
}.

Definition opt_str (o : option string) : string :=
  match o with Some s => s | None => "" end.

(** The loop of [fetch_feed_entries] over [parsed.entries]. *)
Fixpoint feed_items (raws : list RawEntry) : list Entry :=
  match raws with
  | [] => []
  | e :: rest =>
      let link := str_or (opt_str (raw_link e)) (opt_str (raw_id e)) in
      if str_empty link then feed_items rest
      else mkEntry (str_or (opt_str (raw_title e)) "")
                   (str_or (opt_str (raw_summary e)) "")
                   link
                   (opt_str (raw_published e))
           :: feed_items rest
  end.

(** What [send_message_telegram] returns next to [False]. *)
Inductive SendInfo :=
| rate_limit (retry_after : Z)
| send_error
| send_exception.

(** The verdict of the policy checks at the head of the loop body of
    [process_source] (lines 229-260) on one candidate. *)
Inductive Verdict :=
| StopRunBudget
| SkipNoUrl
| StopNightMode
| StopDailyCap
| StopEffective
| SkipDuplicate
| SkipDomainCap
| Admit.

(** ** The program *)

Section Program.

Variable cfg : Config.
Variable env : Env.

Definition clean_text (text : string) : string :=
  if str_empty text then "" else clean_nonempty env text.

Definition domain_from_url (u : string) : string :=
  match urlparse_hostname env u with
  | UrlHostname h => lower env (str_or (opt_str h) "")
  | UrlRaises => ""
  end.

Definition norm_hash (s : string) : string := sha256_hex env s.

Definition now_utc : M instant := ask (utc_now env).

(** [async with aiosqlite.connect(DB_PATH) as db: ...]: one statement on
    the table, which either fails as a whole or runs. *)
Definition sqlite {A} (q : Sql) (run : Table -> A * Table) : M A :=
  emit (EvSql q);;
  failed <- ask (sqlite_fails env);;
  if (failed : bool) then raise SqliteError
  else fun w =>
         let (a, t) := run (sent_items w) in
         (Ret a, mkWorld t (steps w) (trace w)).

Definition already_sent (u : string) : M bool :=
  let h := norm_hash u in
  sqlite (SqlExists h) (fun t => (has_key h t, t)).

Definition mark_sent (u : string) (title_ : string) : M unit :=
  let h := norm_hash u in
  let domain := domain_from_url u in
  now <- now_utc;;
  let r := mkRow h u domain title_ now in
  sqlite (SqlInsert r) (fun t => (tt, insert_or_ignore r t)).

Definition count_sent_last_24h : M Z :=
  now <- now_utc;;
  let cutoff := now - hours24 in
  sqlite (SqlCount cutoff) (fun t => (count_since cutoff t, t)).

Definition count_sent_by_domain_last_24h (domain : string) : M Z :=
  if str_empty domain then ret 0
  else
    now <- now_utc;;
    let cutoff := now - hours24 in
    sqlite (SqlCountDomain domain cutoff)
           (fun t => (count_domain_since domain cutoff t, t)).

(** The [for s in sources] loop of [load_sources_from_yaml]. *)
Fixpoint collect_sources (items : list yaml) (out : list Source) : M (list Source) :=
  match items with
  | [] => ret out
  | s :: rest =>
      u <- py_get s "url";;
      if negb (truthy u) then collect_sources rest out
      else
        c <- py_get s "category";;
        tag <- (if truthy c then ret c
                else t <- py_get s "tag";;
                     if truthy t then ret t
                     else n <- py_get s "name";;
                          ret (py_or n (YStr "")));;
        up <- py_upper env (py_or tag (YStr ""));;
        collect_sources rest (out ++ [mkSource u up])
  end.

Definition load_sources_from_yaml (path : string) : M (list Source) :=
  st <- ask (fun n => sources_file env n path);;
  match st with
  | FileMissing => log WARNING (SourcesNotFound path);; ret []
  | FileUnreadable => raise OSError
  | FileYamlError => raise YAMLError
  | FileDoc doc =>
      let data := py_or doc (YMap []) in
      v <- py_get data "sources";;
      let sources := py_or v (YSeq []) in
      items <- py_iter sources;;
      collect_sources items []
  end.

Definition fetch_feed_entries (u : yaml) : M (list Entry) :=
  emit (EvFetch u);;
  parsed <- ask (fun n => feedparser_parse env n u);;
  match parsed with
  | None => raise FeedError
  | Some raws => ret (feed_items raws)
  end.

Definition send_message_telegram (text : string) : M (bool * option SendInfo) :=
  emit (EvPost text);;
  resp <- ask (fun n => telegram_post env n text);;
  match resp with
  | Status200 => ret (true, None)
  | Status429 ra =>
      ret (false, Some (rate_limit (match ra with Some n => n | None => 30 end)))
  | StatusOther => ret (false, Some send_error)
  | PostFailed => ret (false, Some send_exception)
  end.

Definition safe_send_html (text : string) : M bool :=
  r <- send_message_telegram text;;
  let (ok, info) := (r : bool * option SendInfo) in
  if ok then ret true
  else match info with
       | Some (rate_limit retry_after) =>
           log WARNING (RateLimited retry_after);;
           sleep (RetryAfterPlus1 retry_after);;
           r2 <- send_message_telegram text;;
           if fst (r2 : bool * option SendInfo) then ret true
           else log WARNING FailedAfterRetry;; ret false
       | _ => log WARNING SendFailed;; ret false
       end.

Definition in_night_mode : M bool :=
  h <- ask (local_hour env);;
  ret (night_window (NIGHT_START_HOUR cfg) (NIGHT_END_HOUR cfg) h).

Definition newline : string := String (ascii_of_nat 10) EmptyString.
Definition dquote : string := String (ascii_of_nat 34) EmptyString.

(** Lines 262-266: the title and the summary shown for an entry, before
    truncation. *)
Definition shown_title (e : Entry) : string :=
  str_or (clean_text (title e)) (url e).

Definition shown_summary (e : Entry) : string :=
  let s := clean_text (summary e) in
  if andb (negb (str_empty s))
          (str_contains (lower env s) (lower env (shown_title e)))
  then "" else s.

(** Lines 262-280: the message built for an admitted entry. *)
Definition render_message (src : Source) (e : Entry) : string :=
  let summary_ := truncate_summary (shown_summary e) in
  let tag := str_or (src_tag src) "IT" in
  let title_html := escape_html_text (shown_title e) in
  let summary_html := escape_html_text summary_ in
  let tag_html := escape_html_text tag in
  let msg := ("<b>[" ++ tag_html ++ "] " ++ title_html ++ "</b>")%string in
  let msg := if str_empty summary_html then msg
             else (msg ++ newline ++ newline ++ summary_html)%string in
  (msg ++ newline ++ newline ++ "<a href=" ++ dquote
       ++ escape_html_text (url e) ++ dquote ++ ">source</a>")%string.

(** Lines 229-260: the checks made on one candidate, in order. *)
Definition policy_check (e : Entry) (posts_left : Z) : M Verdict :=
  if posts_left <=? 0 then ret StopRunBudget
  else if str_empty (url e) then ret SkipNoUrl
  else
    night <- in_night_mode;;
    if (night : bool) then log INFO NightSkipPosting;; ret StopNightMode
    else
      sent_last24 <- count_sent_last_24h;;
      let remaining_today := Z.max 0 (DAILY_MAX_POSTS cfg - sent_last24) in
      if remaining_today <=? 0
      then log INFO (DailyLimitReached sent_last24);; ret StopDailyCap
      else
        let effective_allowed :=
          Z.min (Z.min posts_left remaining_today) (MAX_POSTS_PER_RUN cfg) in
        if effective_allowed <=? 0 then ret StopEffective
        else
          dup <- already_sent (url e);;
          if (dup : bool) then ret SkipDuplicate
          else
            let domain := domain_from_url (url e) in
            domain_count <- count_sent_by_domain_last_24h domain;;
            if DOMAIN_MAX_PER_24H cfg <=? domain_count
            then log INFO (DomainSkip (url e) domain domain_count);;
                 ret SkipDomainCap
            else ret Admit.

(** The [for e in entries] loop of [process_source]: [break] returns
    [sent], [continue] goes on with the rest. *)
Fixpoint process_entries (src : Source) (entries : list Entry)
    (posts_left sent : Z) : M Z :=
  match entries with
  | [] => ret sent
  | e :: rest =>
      v <- policy_check e posts_left;;
      match v with
      | StopRunBudget | StopNightMode | StopDailyCap | StopEffective => ret sent
      | SkipNoUrl | SkipDuplicate | SkipDomainCap =>
          process_entries src rest posts_left sent
      | Admit =>
          ok <- safe_send_html (render_message src e);;
          if (ok : bool) then
            mark_sent (url e) (shown_title e);;
            sleep MinDelay;;
            process_entries src rest (posts_left - 1) (sent + 1)
          else
            sleep Cooldown5;;
            process_entries src rest posts_left sent
      end
  end.

Definition process_source (src : Source) (posts_left : Z) : M Z :=
  r <- try_ (fetch_feed_entries (src_url src));;
  match r with
  | Raised _ => log WARNING (FetchFailed (src_url src));; ret 0
  | Ret entries => process_entries src entries posts_left 0
  end.

(** The [for s in sources] loop of [main_job]. *)
Fixpoint run_sources (sources : list Source) (posts_remaining : Z) : M Z :=
  match sources with
  | [] => ret posts_remaining
  | s :: rest =>
      if posts_remaining <=? 0 then ret posts_remaining
      else
        r <- try_ (process_source s posts_remaining);;
        match r with
        | Ret sent => run_sources rest (posts_remaining - sent)
        | Raised ex =>
            log ERROR (ErrorProcessing (src_url s) ex);;
            run_sources rest posts_remaining
        end
  end.

Definition main_job : M unit :=
  log INFO JobStarted;;
  sources <- load_sources_from_yaml (SOURCES_FILE cfg);;
  match sources with
  | [] => log WARNING (NoSourcesLoaded (SOURCES_FILE cfg))
  | _ :: _ =>
      night <- in_night_mode;;
      if (night : bool) then log INFO NightSkipJob
      else
        sent_last24 <- count_sent_last_24h;;
        let remaining_today := Z.max 0 (DAILY_MAX_POSTS cfg - sent_last24) in
        if remaining_today <=? 0 then log INFO (DailyTargetReached sent_last24)
        else
          let posts_remaining := Z.min (MAX_POSTS_PER_RUN cfg) remaining_today in
          left <- run_sources sources posts_remaining;;
          log INFO (JobFinished left)
  end.

End Program.

(** ** Reading a trace *)

Definition is_fetch (ev : Event) : bool :=
  match ev with EvFetch _ => true | _ => false end.

Definition is_post (ev : Event) : bool :=
  match ev with EvPost _ => true | _ => false end.

(** The events a computation adds to the trace of the world it starts in. *)
Definition new_events {A} (m : M A) (w : World) : list Event :=
  skipn (List.length (trace w)) (trace (snd (m w))).

Definition initial_world (t : Table) : World := mkWorld t 0%nat [].

(** ** Runs used as examples *)

Definition two_sources : yaml :=
  YMap [(YStr "sources",
         YSeq [YMap [(YStr "url", YStr "A"); (YStr "category", YStr "dev")];
               YMap [(YStr "url", YStr "B")]])].

Definition feed_of (u : yaml) : option (list RawEntry) :=
  match u with
  | YStr "A" =>
      Some [mkRaw (Some "http://a/1") None (Some "T1") (Some "S1") None;
            mkRaw (Some "http://a/2") None (Some "T2") None None]
  | YStr "B" => Some [mkRaw None (Some "http://b/1") (Some "U1") None None]
  | _ => None
  end.

(** The defaults of [main.py]. *)
Definition default_cfg : Config := mkConfig "/app/sources.yaml" 3 30 2 0 7.

(** A toy [urlparse]: the host is what follows [http://] up to the next
    slash; any other text has no host. *)
Fixpoint until_slash (s : string) : string :=
  match s with
  | EmptyString => EmptyString
  | String c r => if Ascii.eqb c "/"%char then EmptyString
                  else String c (until_slash r)
  end.

Definition toy_hostname (u : string) : UrlParse :=
  if String.prefix "http://" u
  then UrlHostname (Some (until_slash (String.substring 7 (String.length u) u)))
  else UrlHostname None.

(** An environment given by its clock, its configuration file, its
    Telegram answers and its SQLite faults; the feeds are [feed_of], the
    hash is the identity, the text cleaner is the identity and the case
    mappings are those of the ASCII letters. *)
Definition make_env (hour : nat -> Z) (file : FileState)
    (answer : nat -> Response) (fault : nat -> bool) : Env :=
  mkEnv hour (fun n => 1000 + Z.of_nat n)
        (fun _ _ => file)
        (fun _ u => feed_of u)
        (fun n _ => answer n)
        fault
        (fun s => s)
        toy_hostname
        (fun s => s)
        ascii_lower
        ascii_upper.

(** Noon all along, two sources, Telegram accepts, SQLite works. *)
Definition calm_env : Env :=
  make_env (fun _ => 12) (FileDoc two_sources) (fun _ => Status200) (fun _ => false).

(** The hour turns from 23 to 0 at interaction [k]. *)
Definition midnight_env (k : nat) : Env :=
  make_env (fun n => if Nat.ltb n k then 23 else 0) (FileDoc two_sources)
           (fun _ => Status200) (fun _ => false).

(** SQLite fails at interaction [k] only. *)
Definition faulty_env (k : nat) : Env :=
  make_env (fun _ => 12) (FileDoc two_sources) (fun _ => Status200)
           (fun n => Nat.eqb n k).

(** Telegram answers every request with a status that is neither 200 nor 429. *)
Definition refusing_env : Env :=
  make_env (fun _ => 12) (FileDoc two_sources) (fun _ => StatusOther) (fun _ => false).

Definition with_file (file : FileState) : Env :=
  make_env (fun _ => 12) file (fun _ => Status200) (fun _ => false).

(** A summary of [n] letters x. *)
Fixpoint filler (n : nat) : string :=
  match n with
  | O => EmptyString
  | S k => String "x"%char (filler k)
  end.

(** [mark_sent(u, t)] for each title of a list, one call after the other. *)
Fixpoint record_repeatedly (env : Env) (u : string) (titles : list string) : M unit :=
  match titles with
  | [] => ret tt
  | t :: rest => mark_sent env u t;; record_repeatedly env u rest
  end.

(** Does some event satisfying [later] follow one satisfying [first]? *)
Fixpoint followed_by (first later : Event -> bool) (tr : list Event) : bool :=
  match tr with
  | [] => false
  | ev :: rest =>
      if first ev then orb (existsb later rest) (followed_by first later rest)
      else followed_by first later rest
  end.

Definition is_stop_log (ev : Event) : bool :=
  match ev with
  | EvLog _ NightSkipPosting => true
  | EvLog _ (DailyLimitReached _) => true
  | _ => false
  end.

Definition is_ledger_error_log (ev : Event) : bool :=
  match ev with
  | EvLog _ (ErrorProcessing _ SqliteError) => true
  | _ => false
  end.

(** ** Vocabulary of the statements *)

(** [grows P m]: [m] only appends events to the trace, all of them
    satisfying [P]. *)
Definition grows {A} (P : Event -> bool) (m : M A) : Prop :=
  forall w, exists tl, trace (snd (m w)) = trace w ++ tl /\ forallb P tl = true.

(** [keeps_table m]: [m] leaves [sent_items] as it found it. *)
Definition keeps_table {A} (m : M A) : Prop :=
  forall w, sent_items (snd (m w)) = sent_items w.

(** Events that are neither a fetch nor a request to Telegram. *)
Definition silent (ev : Event) : bool := negb (orb (is_fetch ev) (is_post ev)).

(** No constraint on the events added. *)
Definition any_event (ev : Event) : bool := true.

(** [starts_with ev m]: the first thing [m] does to the trace is to add
    [ev]. *)
Definition starts_with {A} (ev : Event) (m : M A) : Prop :=
  forall w, exists tl, trace (snd (m w)) = trace w ++ ev :: tl.

(** [raises_only e0 m]: an exception leaving [m] is [e0]. *)
Definition raises_only {A} (e0 : exn) (m : M A) : Prop :=
  forall w e w', m w = (Raised e, w') -> e = e0.

(** The instant read by the daily-cap query of [main_job]: the clock is the
    third thing the cycle consults, after the sources file and the local
    hour. *)
Definition cap_check_instant (env : Env) (w : World) : instant :=
  utc_now env (2 + steps w).

(** A delivery fails when Telegram answers the request with a status other
    than 200 and 429, when the request raises, or when it answers 429 and
    the one retry is not answered 200. *)
Definition delivery_fails (env : Env) (text : string) (w : World) : Prop :=
  telegram_post env (steps w) text = StatusOther \/
  telegram_post env (steps w) text = PostFailed \/
  (exists ra, telegram_post env (steps w) text = Status429 ra) /\
  telegram_post env (S (steps w)) text <> Status200.

(** A sources file that is missing, or holds an empty document, or a
    mapping in which [sources] is absent or empty. *)
Definition empty_config (st : FileState) : Prop :=
  st = FileMissing \/
  (exists doc, st = FileDoc doc /\ truthy doc = false) \/
  (exists pairs, st = FileDoc (YMap pairs) /\
                 truthy (lookup "sources" pairs) = false).

(** What the loader logs by itself. *)
Definition loader_log (st : FileState) (path : string) : list Event :=
  match st with
  | FileMissing => [EvLog WARNING (SourcesNotFound path)]
  | _ => []
  end.

(** [urlparse] raises on the URL or finds no host in it. *)
Definition no_hostname (env : Env) (u : string) : Prop :=
  urlparse_hostname env u = UrlRaises \/
  urlparse_hostname env u = UrlHostname None \/
  urlparse_hostname env u = UrlHostname (Some "").

(** ** Vocabulary of the further properties *)

(** How many times a character occurs in a string. *)
Fixpoint count_char (c : ascii) (s : string) : nat :=
  match s with
  | EmptyString => O
  | String d r => ((if Ascii.eqb d c then 1 else 0) + count_char c r)%nat
  end.

(** The local clock shows a blackout hour at interaction [n]. *)
Definition night_at (cfg : Config) (env : Env) (n : nat) : bool :=
  night_window (NIGHT_START_HOUR cfg) (NIGHT_END_HOUR cfg) (local_hour env n).

(** No statement sent to SQLite fails. *)
Definition store_works (env : Env) : Prop :=
  forall n, sqlite_fails env n = false.

(** [respects R m]: the table [m] leaves is related by [R] to the table it
    found. *)
Definition respects {A} (R : Table -> Table -> Prop) (m : M A) : Prop :=
  forall w, R (sent_items w) (sent_items (snd (m w))).

(** The primary key stays a key. *)
Definition keeps_pk (t t' : Table) : Prop := pk_unique t -> pk_unique t'.

(** Rows are only added, at the end. *)
Definition grown_from (t t' : Table) : Prop := exists added, t' = t ++ added.

(** The hours a clock can show. *)
Definition hours_of_day : list Z := map Z.of_nat (seq 0 24).

(** How many hours of the day fall in the blackout window. *)
Definition blackout_hours (start end_ : Z) : Z :=
  Z.of_nat (List.length (filter (night_window start end_) hours_of_day)).

(** An item of the [sources] list that the loader can read: a mapping in
    which [category], [tag] and [name] are strings when they are there. *)
Definition text_or_absent (v : yaml) : Prop :=
  truthy v = false \/ exists s, v = YStr s.

Definition readable_item (item : yaml) : Prop :=
  exists pairs,
    item = YMap pairs /\
    text_or_absent (lookup "category" pairs) /\
    text_or_absent (lookup "tag" pairs) /\
    text_or_absent (lookup "name" pairs).

(** The items of the [sources] list that give a URL. *)
Definition has_url (item : yaml) : bool :=
  match item with
  | YMap pairs => truthy (lookup "url" pairs)
  | _ => false
  end.

(** The value of [s.get("category") or s.get("tag") or s.get("name") or ""],
    then [tag or ""], for the mapping [s]. *)
Definition chosen_tag (pairs : list (yaml * yaml)) : yaml :=
  py_or (py_or (lookup "category" pairs)
               (py_or (lookup "tag" pairs)
                      (py_or (lookup "name" pairs) (YStr ""))))
        (YStr "").

(** The source made of a readable item that gives a URL. *)
Definition source_of (env : Env) (item : yaml) : Source :=
  match item with
  | YMap pairs =>
      mkSource (lookup "url" pairs)
               (match chosen_tag pairs with YStr t => upper env t | _ => "" end)
  | _ => mkSource YNull ""
  end.

(** The per-domain count the checks obtain for a domain when the clock is
    read at interaction [at_]: 0 for the empty domain, without a query. *)
Definition domain_count (env : Env) (domain : string) (at_ : nat) (t : Table) : Z :=
  if str_empty domain then 0
  else count_domain_since domain (utc_now env at_ - hours24) t.

(** The conditions under which a candidate is admitted, read on the world
    in which its checks start: run budget left, a URL, no blackout, the
    24-hour count under the daily cap, a positive per-run cap, a URL not yet
    in the table, the per-domain count under its cap. *)
Definition admissible (cfg : Config) (env : Env) (e : Entry) (p : Z) (w : World) : bool :=
  let n := steps w in
  let t := sent_items w in
  (0 <? p)
  && negb (str_empty (url e))
  && negb (night_at cfg env n)
  && (count_since (utc_now env (1 + n) - hours24) t <? DAILY_MAX_POSTS cfg)
  && (0 <? MAX_POSTS_PER_RUN cfg)
  && negb (has_key (norm_hash env (url e)) t)
  && (domain_count env (domain_from_url env (url e)) (4 + n) t
        <? DOMAIN_MAX_PER_24H cfg).

(** Events that are a log line or a statement sent to SQLite: no fetch, no
    post, no sleep. *)
Definition quiet (ev : Event) : bool :=
  match ev with
  | EvLog _ _ | EvSql _ => true
  | _ => false
  end.

(** The verdicts that pass over one item and let the loop go on. *)
Definition is_skip (v : Verdict) : bool :=
  match v with
  | SkipNoUrl | SkipDuplicate | SkipDomainCap => true
  | _ => false
  end.

(** ** The parts of a message *)

(** Lines 271-277: the bold header, with the tag and the title. *)
Definition message_head (env : Env) (src : Source) (e : Entry) : string :=
  ("<b>[" ++ escape_html_text (str_or (src_tag src) "IT") ++ "] "
          ++ escape_html_text (shown_title env e) ++ "</b>")%string.

(** Lines 265-266: is the cleaned summary dropped, as a text found in the
    title when both are put in lower case? *)
Definition suppressed (env : Env) (e : Entry) : bool :=
  let s := clean_text env (summary e) in
  andb (negb (str_empty s))
       (str_contains (lower env s) (lower env (shown_title env e))).

(** Line 274: [summary_html], the summary as the message shows it. *)
Definition summary_html (env : Env) (e : Entry) : string :=
  escape_html_text (truncate_summary (shown_summary env e)).

(** Line 280: the link that closes the message. *)
Definition message_link (e : Entry) : string :=
  (newline ++ newline ++ "<a href=" ++ dquote
     ++ escape_html_text (url e) ++ dquote ++ ">source</a>")%string.

(** A summary of [n] ampersands. *)
Fixpoint ampersands (n : nat) : string :=
  match n with
  | O => EmptyString
  | S k => String "&"%char (ampersands k)
  end.

(** * Properties *)

(** ** Night mode *)

Lemma night_window_same_day (start end_ h : Z) :
  start < end_ ->
  night_window start end_ h = true <-> start <= h < end_.
Proof.
  intros Hlt. unfold night_window.
  destruct (Z.ltb_spec start end_) as [_ | Hge]; [| lia].
  rewrite andb_true_iff, Z.leb_le, Z.ltb_lt. tauto.
Qed.

Lemma night_window_wraps (start end_ h : Z) :
  end_ <= start ->
  night_window start end_ h = true <-> (start <= h \/ h < end_).
Proof.
  intros Hge. unfold night_window.
  destruct (Z.ltb_spec start end_) as [Hlt | _]; [lia |].
  rewrite orb_true_iff, Z.leb_le, Z.ltb_lt. tauto.
Qed.

Lemma in_night_mode_reads_the_hour (cfg : Config) (env : Env) (w : World) :
  in_night_mode cfg env w =
  (Ret (night_window (NIGHT_START_HOUR cfg) (NIGHT_END_HOUR cfg)
                     (local_hour env (steps w))),
   mkWorld (sent_items w) (S (steps w)) (trace w)).
Proof. reflexivity. Qed.

(** C2.  With the configured hours [start < end], [in_night_mode] answers
    true at local hour [h] exactly when [start <= h < end]; with
    [start > end] exactly when [h >= start] or [h < end].  For 0 and 7 the
    hours 0 and 6 are in the blackout and 7 and 23 are not; for 22 and 6
    the hours 23 and 3 are in the blackout and 7 and 21 are not. *)
Theorem night_mode_window :
  (forall (cfg : Config) (env : Env) (w : World),
      let start := NIGHT_START_HOUR cfg in
      let end_ := NIGHT_END_HOUR cfg in
      let h := local_hour env (steps w) in
      (start < end_ ->
       (fst (in_night_mode cfg env w) = Ret true <-> start <= h < end_)) /\
      (start > end_ ->
       (fst (in_night_mode cfg env w) = Ret true <-> (h >= start \/ h < end_)))) /\
  (night_window 0 7 0 = true /\ night_window 0 7 6 = true /\
   night_window 0 7 7 = false /\ night_window 0 7 23 = false) /\
  (night_window 22 6 23 = true /\ night_window 22 6 3 = true /\
   night_window 22 6 7 = false /\ night_window 22 6 21 = false).
Proof.
  split; [| repeat split; reflexivity].
  intros cfg env w start end_ h.
  rewrite in_night_mode_reads_the_hour. cbn [fst].
  fold start end_ h.
  assert (Hret : forall b : bool, @Ret bool b = Ret true <-> b = true).
  { intros b. split; [intros H; injection H; auto | intros ->; reflexivity]. }
  split; intros Hord; rewrite Hret.
  - apply night_window_same_day; exact Hord.
  - rewrite night_window_wraps by lia. lia.
Qed.

Lemma night_mode_window_witness :
  let cfg := mkConfig "/app/sources.yaml" 3 30 2 22 6 in
  let w := initial_world [] in
  fst (in_night_mode cfg (midnight_env 1) w) = Ret true <->
  (local_hour (midnight_env 1) (steps w) >= 22 \/
   local_hour (midnight_env 1) (steps w) < 6).
Proof.
  intros cfg w.
  apply (proj1 night_mode_window cfg (midnight_env 1) w).
  vm_compute. reflexivity.
Defined.

(** C9.  When the start hour equals the end hour, [in_night_mode] answers
    true whatever the hour: the test [start < end] fails and
    [h >= start or h < end] holds of every [h]. *)
Theorem equal_hours_always_night (cfg : Config) (env : Env) (w : World) :
  NIGHT_START_HOUR cfg = NIGHT_END_HOUR cfg ->
  fst (in_night_mode cfg env w) = Ret true /\
  (forall h : Z, night_window (NIGHT_START_HOUR cfg) (NIGHT_END_HOUR cfg) h = true).
Proof.
  intros Heq.
  assert (Hall : forall h, night_window (NIGHT_START_HOUR cfg) (NIGHT_END_HOUR cfg) h = true).
  { intros h. apply night_window_wraps; lia. }
  split; [| exact Hall].
  rewrite in_night_mode_reads_the_hour. cbn [fst]. now rewrite Hall.
Qed.

Lemma equal_hours_always_night_witness :
  let cfg := mkConfig "/app/sources.yaml" 3 30 2 5 5 in
  fst (in_night_mode cfg calm_env (initial_world [])) = Ret true /\
  (forall h : Z, night_window 5 5 h = true).
Proof.
  intros cfg.
  apply (equal_hours_always_night cfg calm_env (initial_world [])).
  reflexivity.
Defined.

(** ** Summary truncation *)

Lemma length_append (a b : string) :
  String.length (a ++ b)%string = (String.length a + String.length b)%nat.
Proof. induction a as [| c a IH]; simpl; [reflexivity | now rewrite IH]. Qed.

Lemma substring_zero_cons (n : nat) (c : ascii) (s : string) :
  String.substring 0 (S n) (String c s) = String c (String.substring 0 n s).
Proof. reflexivity. Qed.

Lemma length_str_take (n : nat) (s : string) :
  (n <= String.length s)%nat -> String.length (str_take n s) = n.
Proof.
  unfold str_take. revert s.
  induction n as [| n IH]; intros s Hle.
  - destruct s; reflexivity.
  - destruct s as [| c s]; simpl in Hle; [lia |].
    rewrite substring_zero_cons. simpl. f_equal. apply IH. lia.
Qed.

Lemma get_take_append (n i : nat) (s tail : string) :
  (i < n)%nat -> (n <= String.length s)%nat ->
  String.get i (str_take n s ++ tail)%string = String.get i s.
Proof.
  unfold str_take. revert i s.
  induction n as [| n IH]; intros i s Hi Hle; [lia |].
  destruct s as [| c s]; simpl in Hle; [lia |].
  rewrite substring_zero_cons.
  destruct i as [| i]; simpl; [reflexivity |].
  apply IH; lia.
Qed.

Lemma get_after_take (n k : nat) (s tail : string) :
  (n <= String.length s)%nat ->
  String.get (n + k) (str_take n s ++ tail)%string = String.get k tail.
Proof.
  unfold str_take. revert s.
  induction n as [| n IH]; intros s Hle.
  - destruct s; reflexivity.
  - destruct s as [| c s]; simpl in Hle; [lia |].
    rewrite substring_zero_cons. simpl. apply IH. lia.
Qed.

(** The truncation step by itself.  A summary of more than 300 characters
    leaves lines 268-269 with exactly 300 characters: its own first 297,
    then three dots.  A summary of 300 characters or fewer is left as it
    is. *)
Theorem truncation_to_300 (s : string) :
  ((300 < String.length s)%nat ->
   String.length (truncate_summary s) = 300%nat /\
   truncate_summary s = (str_take 297 s ++ "...")%string /\
   (forall i, (i < 297)%nat ->
      String.get i (truncate_summary s) = String.get i s) /\
   (forall i, (297 <= i < 300)%nat ->
      String.get i (truncate_summary s) = Some "."%char)) /\
  ((String.length s <= 300)%nat -> truncate_summary s = s).
Proof.
  unfold truncate_summary. split; intros Hlen.
  - destruct (Z.ltb_spec 300 (Z.of_nat (String.length s))) as [_ | Hno]; [| lia].
    repeat split.
    + rewrite length_append, length_str_take by lia. reflexivity.
    + intros i Hi. apply get_take_append; lia.
    + intros i [Hlo Hhi].
      replace i with (297 + (i - 297))%nat by lia.
      rewrite get_after_take by lia.
      assert (Hk : (i - 297 = 0 \/ i - 297 = 1 \/ i - 297 = 2)%nat) by lia.
      destruct Hk as [-> | [-> | ->]]; reflexivity.
  - destruct (Z.ltb_spec 300 (Z.of_nat (String.length s))) as [Hyes | _]; [lia |].
    reflexivity.
Qed.

Lemma truncation_to_300_witness :
  String.length (truncate_summary (filler 310)) = 300%nat /\
  truncate_summary (filler 310) = (str_take 297 (filler 310) ++ "...")%string /\
  (forall i, (i < 297)%nat ->
     String.get i (truncate_summary (filler 310)) = String.get i (filler 310)) /\
  (forall i, (297 <= i < 300)%nat ->
     String.get i (truncate_summary (filler 310)) = Some "."%char).
Proof.
  apply (proj1 (truncation_to_300 (filler 310))).
  vm_compute. lia.
Defined.

(** ** The ledger *)

Lemma has_key_In (h : string) (t : Table) :
  has_key h t = true <-> In h (map url_hash t).
Proof.
  unfold has_key. rewrite existsb_exists, in_map_iff.
  split; intros [r [H1 H2]]; exists r.
  - apply String.eqb_eq in H2. tauto.
  - split; [tauto |]. apply String.eqb_eq. tauto.
Qed.

Lemma entries_for_app (h : string) (a b : Table) :
  entries_for h (a ++ b) = (entries_for h a + entries_for h b)%nat.
Proof. unfold entries_for. now rewrite filter_app, length_app. Qed.

Lemma entries_for_absent (h : string) (t : Table) :
  has_key h t = false -> entries_for h t = 0%nat.
Proof.
  unfold has_key, entries_for.
  induction t as [| r t IH]; simpl; [reflexivity |].
  destruct (String.eqb (url_hash r) h); simpl; [discriminate | exact IH].
Qed.

Lemma entries_for_present (h : string) (t : Table) :
  pk_unique t -> has_key h t = true -> entries_for h t = 1%nat.
Proof.
  unfold pk_unique.
  induction t as [| r t IH]; simpl; intros Hnd Hin; [discriminate |].
  inversion Hnd as [| x l Hnotin Hnd']; subst.
  unfold entries_for in *. simpl.
  destruct (String.eqb_spec (url_hash r) h) as [Heq | Hne]; simpl.
  - f_equal. apply entries_for_absent.
    destruct (has_key h t) eqn:E; [| reflexivity].
    apply has_key_In in E. subst h. contradiction.
  - unfold has_key in Hin. simpl in Hin.
    destruct (String.eqb_spec (url_hash r) h); [contradiction |].
    simpl in Hin. apply IH; assumption.
Qed.

(** The primary key stays a key under [INSERT OR IGNORE]. *)
Lemma insert_or_ignore_pk (r : Row) (t : Table) :
  pk_unique t -> pk_unique (insert_or_ignore r t).
Proof.
  unfold insert_or_ignore, pk_unique. intros Hnd.
  destruct (has_key (url_hash r) t) eqn:E; [exact Hnd |].
  rewrite map_app. simpl.
  apply NoDup_app; [exact Hnd | repeat constructor; intros [] |].
  intros x Hx [Hy | []]. subst x.
  apply has_key_In in Hx. congruence.
Qed.

Lemma insert_or_ignore_has_key (r : Row) (t : Table) :
  has_key (url_hash r) (insert_or_ignore r t) = true.
Proof.
  unfold insert_or_ignore.
  destruct (has_key (url_hash r) t) eqn:E; [exact E |].
  unfold has_key. rewrite existsb_app. simpl.
  rewrite String.eqb_refl. now rewrite orb_true_r.
Qed.

Lemma insert_or_ignore_again (r r' : Row) (t : Table) :
  url_hash r' = url_hash r ->
  insert_or_ignore r' (insert_or_ignore r t) = insert_or_ignore r t.
Proof.
  intros Hk. unfold insert_or_ignore at 1.
  now rewrite Hk, insert_or_ignore_has_key.
Qed.

(** What [mark_sent] does when SQLite works. *)
Lemma mark_sent_runs (env : Env) (u title_ : string) (w : World) :
  sqlite_fails env (S (steps w)) = false ->
  let r := mkRow (norm_hash env u) u (domain_from_url env u) title_
                 (utc_now env (steps w)) in
  mark_sent env u title_ w =
  (Ret tt, mkWorld (insert_or_ignore r (sent_items w)) (S (S (steps w)))
                   (trace w ++ [EvSql (SqlInsert r)])).
Proof.
  intros Hok r.
  unfold mark_sent, now_utc, sqlite, bind, ask, emit; cbn.
  rewrite Hok. reflexivity.
Qed.

Lemma insert_or_ignore_keeps_key (h : string) (r : Row) (t : Table) :
  has_key h t = true -> has_key h (insert_or_ignore r t) = true.
Proof.
  intros Hin. unfold insert_or_ignore.
  destruct (has_key (url_hash r) t); [exact Hin |].
  unfold has_key in *. rewrite existsb_app, Hin. reflexivity.
Qed.

Lemma record_repeatedly_spec (env : Env) (u : string) :
  (forall n, sqlite_fails env n = false) ->
  forall (titles : list string) (w : World),
    pk_unique (sent_items w) ->
    let out := record_repeatedly env u titles w in
    fst out = Ret tt /\
    pk_unique (sent_items (snd out)) /\
    (titles <> [] \/ has_key (norm_hash env u) (sent_items w) = true ->
     has_key (norm_hash env u) (sent_items (snd out)) = true).
Proof.
  intros Hok titles.
  induction titles as [| t rest IH]; intros w Hpk; cbn zeta.
  - cbn. repeat split; [exact Hpk |].
    intros [Hne | Hin]; [congruence | exact Hin].
  - cbn [record_repeatedly]. unfold bind.
    rewrite (mark_sent_runs env u t w (Hok _)).
    set (r := mkRow _ _ _ _ _).
    set (w1 := mkWorld _ _ _).
    assert (Hpk1 : pk_unique (sent_items w1)).
    { subst w1; cbn. now apply insert_or_ignore_pk. }
    destruct (IH w1 Hpk1) as [Hret [Hpk' Hkey]].
    repeat split; [exact Hret | exact Hpk' |].
    intros _. apply Hkey. right.
    subst w1; cbn. apply (insert_or_ignore_has_key r).
Qed.

(** C5.  With a working store and a table that respects its primary key,
    recording one URL once, twice or any number of times leaves exactly one
    row under the identity hash of that URL; no call raises, the table still
    respects its primary key, and one more recording changes nothing. *)
Theorem record_is_idempotent (env : Env) (u : string)
    (titles : list string) (w : World) :
  (forall n, sqlite_fails env n = false) ->
  pk_unique (sent_items w) ->
  titles <> [] ->
  let out := record_repeatedly env u titles w in
  fst out = Ret tt /\
  entries_for (norm_hash env u) (sent_items (snd out)) = 1%nat /\
  pk_unique (sent_items (snd out)) /\
  forall title_ : string,
    fst (mark_sent env u title_ (snd out)) = Ret tt /\
    sent_items (snd (mark_sent env u title_ (snd out))) = sent_items (snd out).
Proof.
  intros Hok Hpk Hne out.
  destruct (record_repeatedly_spec env u Hok titles w Hpk) as [Hret [Hpk' Hkey]].
  fold out in Hret, Hpk', Hkey.
  assert (Hin : has_key (norm_hash env u) (sent_items (snd out)) = true)
    by (apply Hkey; now left).
  repeat split; try assumption.
  - now apply entries_for_present.
  - rewrite (mark_sent_runs env u title_ (snd out) (Hok _)). reflexivity.
  - rewrite (mark_sent_runs env u title_ (snd out) (Hok _)). cbn.
    unfold insert_or_ignore. cbn. now rewrite Hin.
Qed.

Lemma record_is_idempotent_witness :
  let u := "http://a/1" in
  let out := record_repeatedly calm_env u ["T1"; "T1 again"] (initial_world []) in
  fst out = Ret tt /\
  entries_for (norm_hash calm_env u) (sent_items (snd out)) = 1%nat /\
  pk_unique (sent_items (snd out)) /\
  forall title_ : string,
    fst (mark_sent calm_env u title_ (snd out)) = Ret tt /\
    sent_items (snd (mark_sent calm_env u title_ (snd out))) = sent_items (snd out).
Proof.
  intros u out.
  apply (record_is_idempotent calm_env u ["T1"; "T1 again"] (initial_world [])).
  - intros n. reflexivity.
  - constructor.
  - discriminate.
Defined.

(** ** Frame lemmas: what a computation may add to the trace and whether it
    touches the table *)

Lemma grows_ret {A} P (a : A) : grows P (ret a).
Proof. intros w. exists []. cbn. now rewrite app_nil_r. Qed.

Lemma grows_raise {A} P (e : exn) : grows P (@raise A e).
Proof. intros w. exists []. cbn. now rewrite app_nil_r. Qed.

Lemma grows_ask {A} P (f : nat -> A) : grows P (ask f).
Proof. intros w. exists []. cbn. now rewrite app_nil_r. Qed.

Lemma grows_emit P (ev : Event) : P ev = true -> grows P (emit ev).
Proof. intros H w. exists [ev]. cbn. now rewrite H. Qed.

Lemma grows_bind {A B} P (m : M A) (k : A -> M B) :
  grows P m -> (forall a, grows P (k a)) -> grows P (bind m k).
Proof.
  intros Hm Hk w. unfold bind.
  destruct (Hm w) as [tl1 [E1 F1]].
  destruct (m w) as [[a | e] w1]; cbn in *.
  - destruct (Hk a w1) as [tl2 [E2 F2]].
    exists (tl1 ++ tl2). rewrite E2, E1, app_assoc, forallb_app, F1, F2. auto.
  - exists tl1. auto.
Qed.

Lemma grows_try {A} P (m : M A) : grows P m -> grows P (try_ m).
Proof.
  intros Hm w. unfold try_.
  destruct (Hm w) as [tl [E F]].
  destruct (m w) as [o w1]; cbn in *. exists tl. auto.
Qed.

Lemma grows_sqlite {A} P env (q : Sql) (run : Table -> A * Table) :
  P (EvSql q) = true -> grows P (sqlite env q run).
Proof.
  intros H. unfold sqlite.
  apply grows_bind; [now apply grows_emit |]. intros _.
  apply grows_bind; [apply grows_ask |]. intros [|]; [apply grows_raise |].
  intros w. exists []. destruct (run (sent_items w)); cbn. now rewrite app_nil_r.
Qed.

Lemma keeps_ret {A} (a : A) : keeps_table (ret a).
Proof. intros w. reflexivity. Qed.

Lemma keeps_raise {A} (e : exn) : keeps_table (@raise A e).
Proof. intros w. reflexivity. Qed.

Lemma keeps_ask {A} (f : nat -> A) : keeps_table (ask f).
Proof. intros w. reflexivity. Qed.

Lemma keeps_emit (ev : Event) : keeps_table (emit ev).
Proof. intros w. reflexivity. Qed.

Lemma keeps_bind {A B} (m : M A) (k : A -> M B) :
  keeps_table m -> (forall a, keeps_table (k a)) -> keeps_table (bind m k).
Proof.
  intros Hm Hk w. unfold bind. specialize (Hm w).
  destruct (m w) as [[a | e] w1]; cbn in *; [| exact Hm].
  now rewrite Hk.
Qed.

Lemma keeps_try {A} (m : M A) : keeps_table m -> keeps_table (try_ m).
Proof.
  intros Hm w. unfold try_. specialize (Hm w).
  destruct (m w) as [o w1]. exact Hm.
Qed.

(** A statement that only reads the table. *)
Lemma keeps_query {A} env (q : Sql) (f : Table -> A) :
  keeps_table (sqlite env q (fun t => (f t, t))).
Proof.
  unfold sqlite.
  apply keeps_bind; [apply keeps_emit |]. intros _.
  apply keeps_bind; [apply keeps_ask |]. intros [|]; [apply keeps_raise |].
  intros w. reflexivity.
Qed.

Create HintDb frame.
#[local] Hint Resolve grows_ret grows_raise grows_ask grows_emit grows_try
  grows_sqlite keeps_ret keeps_raise keeps_ask keeps_emit keeps_try
  keeps_query : frame.

(** Steps through a computation built from [bind], branching on the
    conditions it meets. *)
Ltac frame_step :=
  match goal with
  | |- grows _ (bind _ _) => apply grows_bind; [| intros ?]
  | |- keeps_table (bind _ _) => apply keeps_bind; [| intros ?]
  | |- grows _ (if ?c then _ else _) => destruct c eqn:?
  | |- keeps_table (if ?c then _ else _) => destruct c eqn:?
  | |- grows _ (match ?c with _ => _ end) => destruct c eqn:?
  | |- keeps_table (match ?c with _ => _ end) => destruct c eqn:?
  | |- grows _ (log _ _) => apply grows_emit; reflexivity
  | |- grows _ (sleep _) => apply grows_emit; reflexivity
  | |- keeps_table (log _ _) => apply keeps_emit
  | |- keeps_table (sleep _) => apply keeps_emit
  | |- _ => solve [auto with frame]
  end.

Ltac frame := repeat frame_step.

Lemma new_events_of {A} (m : M A) (w : World) (tl : list Event) :
  trace (snd (m w)) = trace w ++ tl -> new_events m w = tl.
Proof.
  intros E. unfold new_events. rewrite E.
  rewrite skipn_app, skipn_all, Nat.sub_diag. reflexivity.
Qed.

Lemma grows_new_events {A} P (m : M A) (w : World) :
  grows P m -> forallb P (new_events m w) = true.
Proof.
  intros H. destruct (H w) as [tl [E F]].
  now rewrite (new_events_of m w tl E).
Qed.

(** ** The parts of a cycle *)

Lemma py_get_pure (d : yaml) (k : string) (w : World) : snd (py_get d k w) = w.
Proof. destruct d; reflexivity. Qed.

Lemma collect_sources_pure (env : Env) (items : list yaml) :
  forall (out : list Source) (w : World),
    snd (collect_sources env items out w) = w.
Proof.
  induction items as [| s rest IH]; intros out w; [reflexivity |].
  cbn [collect_sources]. unfold bind.
  destruct s; try reflexivity. cbn.
  destruct (truthy (lookup "url" pairs)); cbn; [| apply IH].
  destruct (truthy (lookup "category" pairs)); cbn.
  - destruct (py_or (lookup "category" pairs) (YStr "")); cbn; try reflexivity.
    apply IH.
  - destruct (truthy (lookup "tag" pairs)); cbn.
    + destruct (py_or (lookup "tag" pairs) (YStr "")); cbn; try reflexivity.
      apply IH.
    + destruct (py_or (py_or (lookup "name" pairs) (YStr "")) (YStr ""));
        cbn; try reflexivity.
      apply IH.
Qed.

(** Loading the sources is one look at the file; it may log that the file
    is missing and does nothing else to the world. *)
Lemma load_sources_effect (env : Env) (path : string) (w : World) :
  snd (load_sources_from_yaml env path w) =
  mkWorld (sent_items w) (S (steps w))
          (trace w ++ match sources_file env (steps w) path with
                      | FileMissing => [EvLog WARNING (SourcesNotFound path)]
                      | _ => []
                      end).
Proof.
  unfold load_sources_from_yaml, bind, ask. cbn.
  destruct (sources_file env (steps w) path); cbn;
    try (rewrite app_nil_r; reflexivity); try reflexivity.
  destruct (py_or doc (YMap [])) eqn:Ed; cbn; try (rewrite app_nil_r; reflexivity).
  destruct (py_or (lookup "sources" pairs) (YSeq [])); cbn;
    try (rewrite app_nil_r; reflexivity);
    rewrite collect_sources_pure, app_nil_r; reflexivity.
Qed.

Lemma count_sent_last_24h_runs (env : Env) (w : World) :
  count_sent_last_24h env w =
  let cutoff := utc_now env (steps w) - hours24 in
  let w' := mkWorld (sent_items w) (S (S (steps w)))
                    (trace w ++ [EvSql (SqlCount cutoff)]) in
  if sqlite_fails env (S (steps w)) then (Raised SqliteError, w')
  else (Ret (count_since cutoff (sent_items w)), w').
Proof.
  unfold count_sent_last_24h, now_utc, sqlite, bind, ask, emit, raise. cbn.
  destruct (sqlite_fails env (S (steps w))); reflexivity.
Qed.

Lemma grows_in_night_mode P cfg env : grows P (in_night_mode cfg env).
Proof. unfold in_night_mode. frame. Qed.

Lemma keeps_in_night_mode cfg env : keeps_table (in_night_mode cfg env).
Proof. unfold in_night_mode. frame. Qed.

Lemma grows_count_sent P env :
  (forall q, P (EvSql q) = true) -> grows P (count_sent_last_24h env).
Proof. intros H. unfold count_sent_last_24h, now_utc. frame. Qed.

Lemma keeps_count_sent env : keeps_table (count_sent_last_24h env).
Proof. unfold count_sent_last_24h, now_utc. frame. Qed.

Lemma grows_count_domain P env d :
  (forall q, P (EvSql q) = true) -> grows P (count_sent_by_domain_last_24h env d).
Proof. intros H. unfold count_sent_by_domain_last_24h, now_utc. frame. Qed.

Lemma keeps_count_domain env d : keeps_table (count_sent_by_domain_last_24h env d).
Proof. unfold count_sent_by_domain_last_24h, now_utc. frame. Qed.

Lemma grows_already_sent P env u :
  (forall q, P (EvSql q) = true) -> grows P (already_sent env u).
Proof. intros H. unfold already_sent. frame. Qed.

Lemma keeps_already_sent env u : keeps_table (already_sent env u).
Proof. unfold already_sent. frame. Qed.

#[local] Hint Resolve grows_in_night_mode keeps_in_night_mode grows_count_sent
  keeps_count_sent grows_count_domain keeps_count_domain grows_already_sent
  keeps_already_sent : frame.

(** The policy checks neither fetch nor post, and only read the table. *)
Lemma grows_policy_check cfg env e p : grows silent (policy_check cfg env e p).
Proof. unfold policy_check. frame. Qed.

Lemma keeps_policy_check cfg env e p : keeps_table (policy_check cfg env e p).
Proof. unfold policy_check. frame. Qed.

Lemma grows_send_message P env text :
  (forall t, P (EvPost t) = true) -> grows P (send_message_telegram env text).
Proof. intros H. unfold send_message_telegram. frame. Qed.

Lemma keeps_send_message env text : keeps_table (send_message_telegram env text).
Proof. unfold send_message_telegram. frame. Qed.

#[local] Hint Resolve grows_send_message keeps_send_message : frame.

Lemma grows_safe_send env text : grows any_event (safe_send_html env text).
Proof.
  unfold safe_send_html. frame.
Qed.

Lemma keeps_safe_send env text : keeps_table (safe_send_html env text).
Proof. unfold safe_send_html. frame. Qed.

Lemma grows_mark_sent env u t : grows any_event (mark_sent env u t).
Proof. unfold mark_sent, now_utc. frame. Qed.

#[local] Hint Resolve grows_safe_send keeps_safe_send grows_mark_sent : frame.

Lemma grows_policy_check_any cfg env e p : grows any_event (policy_check cfg env e p).
Proof. unfold policy_check. frame. Qed.

#[local] Hint Resolve grows_policy_check_any : frame.

Lemma grows_process_entries cfg env src entries :
  forall p sent, grows any_event (process_entries cfg env src entries p sent).
Proof.
  induction entries as [| e rest IH]; intros p sent; cbn [process_entries].
  - frame.
  - apply grows_bind; [auto with frame |]. intros v.
    destruct v; auto with frame.
    apply grows_bind; [auto with frame |]. intros [|].
    + apply grows_bind; [auto with frame |]. intros _.
      apply grows_bind; [apply grows_emit; reflexivity |]. intros _. apply IH.
    + apply grows_bind; [apply grows_emit; reflexivity |]. intros _. apply IH.
Qed.

Lemma grows_fetch env u : grows any_event (fetch_feed_entries env u).
Proof. unfold fetch_feed_entries. frame. Qed.

Lemma grows_process_source cfg env src p :
  grows any_event (process_source cfg env src p).
Proof.
  unfold process_source.
  apply grows_bind; [apply grows_try, grows_fetch |].
  intros [entries | ex]; [apply grows_process_entries | frame].
Qed.

Lemma grows_run_sources cfg env sources :
  forall p, grows any_event (run_sources cfg env sources p).
Proof.
  induction sources as [| s rest IH]; intros p; cbn [run_sources]; [frame |].
  destruct (p <=? 0); [frame |].
  apply grows_bind; [apply grows_try, grows_process_source |].
  intros [sent | ex]; [apply IH |].
  apply grows_bind; [apply grows_emit; reflexivity |]. intros _. apply IH.
Qed.

Lemma starts_emit_bind {A} (ev : Event) (k : unit -> M A) :
  grows any_event (k tt) -> starts_with ev (bind (emit ev) k).
Proof.
  intros Hk w. unfold bind, emit.
  destruct (Hk (mkWorld (sent_items w) (steps w) (trace w ++ [ev]))) as [tl [E _]].
  exists tl. rewrite E. cbn. now rewrite <- app_assoc.
Qed.

Lemma starts_bind {A B} (ev : Event) (m : M A) (k : A -> M B) :
  starts_with ev m -> (forall a, grows any_event (k a)) ->
  starts_with ev (bind m k).
Proof.
  intros Hm Hk w. unfold bind.
  destruct (Hm w) as [tl1 E1].
  destruct (m w) as [[a | e] w1]; cbn in *.
  - destruct (Hk a w1) as [tl2 [E2 _]].
    exists (tl1 ++ tl2). rewrite E2, E1, <- app_assoc. reflexivity.
  - exists tl1. exact E1.
Qed.

Lemma starts_try {A} (ev : Event) (m : M A) :
  starts_with ev m -> starts_with ev (try_ m).
Proof.
  intros Hm w. unfold try_.
  destruct (Hm w) as [tl E].
  destruct (m w) as [o w1]. exists tl. exact E.
Qed.

Lemma process_source_starts cfg env (s : Source) (p : Z) :
  starts_with (EvFetch (src_url s)) (process_source cfg env s p).
Proof.
  unfold process_source.
  apply starts_bind.
  - apply starts_try. unfold fetch_feed_entries.
    apply starts_emit_bind. frame.
  - intros [entries | ex]; [apply grows_process_entries | frame].
Qed.

(** While run budget remains, the orchestrator's loop opens with the fetch
    of its next source. *)
Lemma run_sources_fetches_next cfg env (s : Source) (rest : list Source) (p : Z) :
  0 < p -> starts_with (EvFetch (src_url s)) (run_sources cfg env (s :: rest) p).
Proof.
  intros Hp. cbn [run_sources].
  destruct (Z.leb_spec p 0) as [Hle | _]; [lia |].
  apply starts_bind.
  - apply starts_try, process_source_starts.
  - intros [sent | ex]; [apply grows_run_sources |].
    apply grows_bind; [apply grows_emit; reflexivity |].
    intros _. apply grows_run_sources.
Qed.

Lemma raises_ret {A} e0 (a : A) : raises_only e0 (ret a).
Proof. intros w e w' H. discriminate. Qed.

Lemma raises_ask {A} e0 (f : nat -> A) : raises_only e0 (ask f).
Proof. intros w e w' H. discriminate. Qed.

Lemma raises_emit e0 (ev : Event) : raises_only e0 (emit ev).
Proof. intros w e w' H. discriminate. Qed.

Lemma raises_raise {A} e0 : raises_only e0 (@raise A e0).
Proof. intros w e w' H. now inversion H. Qed.

Lemma raises_try {A} e0 (m : M A) : raises_only e0 (try_ m).
Proof. intros w e w' H. unfold try_ in H. destruct (m w). discriminate. Qed.

Lemma raises_bind {A B} e0 (m : M A) (k : A -> M B) :
  raises_only e0 m -> (forall a, raises_only e0 (k a)) -> raises_only e0 (bind m k).
Proof.
  intros Hm Hk w e w' H. unfold bind in H.
  destruct (m w) as [[a | e1] w1] eqn:E.
  - exact (Hk a w1 e w' H).
  - inversion H; subst. exact (Hm w e w' E).
Qed.

Lemma raises_sqlite {A} env (q : Sql) (run : Table -> A * Table) :
  raises_only SqliteError (sqlite env q run).
Proof.
  unfold sqlite.
  apply raises_bind; [apply raises_emit |]. intros _.
  apply raises_bind; [apply raises_ask |]. intros [|]; [apply raises_raise |].
  intros w e w' H. destruct (run (sent_items w)). discriminate.
Qed.

#[local] Hint Resolve raises_ret raises_ask raises_emit raises_raise raises_try
  raises_sqlite : frame.

Ltac raises_step :=
  match goal with
  | |- raises_only _ (bind _ _) => apply raises_bind; [| intros ?]
  | |- raises_only _ (if ?c then _ else _) => destruct c eqn:?
  | |- raises_only _ (match ?c with _ => _ end) => destruct c eqn:?
  | |- raises_only _ (log _ _) => apply raises_emit
  | |- raises_only _ (sleep _) => apply raises_emit
  | |- _ => solve [auto with frame]
  end.

Ltac raises := repeat raises_step.

Lemma raises_policy_check cfg env e p :
  raises_only SqliteError (policy_check cfg env e p).
Proof.
  unfold policy_check, in_night_mode, count_sent_last_24h, already_sent,
    count_sent_by_domain_last_24h, now_utc.
  raises.
Qed.

Lemma raises_safe_send env text : raises_only SqliteError (safe_send_html env text).
Proof. unfold safe_send_html, send_message_telegram. raises. Qed.

Lemma raises_mark_sent env u t : raises_only SqliteError (mark_sent env u t).
Proof. unfold mark_sent, now_utc. raises. Qed.

#[local] Hint Resolve raises_policy_check raises_safe_send raises_mark_sent : frame.

Lemma raises_process_entries cfg env src entries :
  forall p sent, raises_only SqliteError (process_entries cfg env src entries p sent).
Proof.
  induction entries as [| e rest IH]; intros p sent; cbn [process_entries].
  - raises.
  - apply raises_bind; [auto with frame |]. intros v.
    destruct v; auto with frame.
    apply raises_bind; [auto with frame |]. intros [|].
    + apply raises_bind; [auto with frame |]. intros _.
      apply raises_bind; [apply raises_emit |]. intros _. apply IH.
    + apply raises_bind; [apply raises_emit |]. intros _. apply IH.
Qed.

(** A failed fetch is contained in [process_source]; what leaves it is an
    error of the ledger. *)
Lemma raises_process_source cfg env src p :
  raises_only SqliteError (process_source cfg env src p).
Proof.
  unfold process_source.
  apply raises_bind; [apply raises_try |].
  intros [entries | ex]; [apply raises_process_entries | raises].
Qed.

(** ** Stops inside a source *)




(** ** Ledger failures *)




(** ** The daily cap at the start of a cycle *)

Lemma main_job_after_load (cfg : Config) (env : Env) (w : World) :
  main_job cfg env w =
  (let w0 := mkWorld (sent_items w) (steps w) (trace w ++ [EvLog INFO JobStarted]) in
   match load_sources_from_yaml env (SOURCES_FILE cfg) w0 with
   | (Raised e, w1) => (Raised e, w1)
   | (Ret [], w1) => log WARNING (NoSourcesLoaded (SOURCES_FILE cfg)) w1
   | (Ret (s :: ss), w1) =>
       (night <- in_night_mode cfg env;;
        if (night : bool) then log INFO NightSkipJob
        else
          sent_last24 <- count_sent_last_24h env;;
          let remaining_today := Z.max 0 (DAILY_MAX_POSTS cfg - sent_last24) in
          if remaining_today <=? 0 then log INFO (DailyTargetReached sent_last24)
          else
            left <- run_sources cfg env (s :: ss)
                      (Z.min (MAX_POSTS_PER_RUN cfg) remaining_today);;
            log INFO (JobFinished left)) w1
   end).
Proof.
  unfold main_job. unfold bind at 1. unfold log at 1, emit at 1.
  unfold bind at 1.
  destruct (load_sources_from_yaml env (SOURCES_FILE cfg) _) as [[[| s ss] | e] w1];
    reflexivity.
Qed.

(** C4.  If, at the instant the cycle's daily-cap query reads, the ledger
    holds [DAILY_MAX_POSTS] or more rows stamped within the last 24 hours,
    the cycle admits and delivers nothing, whatever the sources and their
    items: the table is left as it was and the cycle makes no request to
    Telegram (nor any fetch). *)
Theorem daily_cap_reached_admits_nothing (cfg : Config) (env : Env) (w : World) :
  DAILY_MAX_POSTS cfg <=
    count_since (cap_check_instant env w - hours24) (sent_items w) ->
  sent_items (snd (main_job cfg env w)) = sent_items w /\
  existsb is_post (new_events (main_job cfg env) w) = false /\
  existsb is_fetch (new_events (main_job cfg env) w) = false.
Proof.
  intros Hcap.
  set (L := match sources_file env (steps w) (SOURCES_FILE cfg) with
            | FileMissing => [EvLog WARNING (SourcesNotFound (SOURCES_FILE cfg))]
            | _ => []
            end).
  assert (HL : existsb is_post L = false /\ existsb is_fetch L = false)
    by (subst L; destruct (sources_file env (steps w) (SOURCES_FILE cfg)); auto).
  destruct HL as [HLp HLf].
  assert (Hgoal : forall r, r = main_job cfg env w ->
            exists tl,
              sent_items (snd r) = sent_items w /\
              trace (snd r) = trace w ++ tl /\
              existsb is_post tl = false /\ existsb is_fetch tl = false).
  { intros r Hr. rewrite main_job_after_load in Hr. cbv zeta in Hr.
    pose proof (load_sources_effect env (SOURCES_FILE cfg)
      (mkWorld (sent_items w) (steps w) (trace w ++ [EvLog INFO JobStarted]))) as Hload.
    cbn [sent_items steps trace] in Hload. fold L in Hload.
    destruct (load_sources_from_yaml env (SOURCES_FILE cfg) _) as [[[| s ss] | e] w1];
      cbn [snd] in Hload; subst w1.
    - subst r.
      exists (EvLog INFO JobStarted :: L ++ [EvLog WARNING (NoSourcesLoaded (SOURCES_FILE cfg))]).
      cbn. rewrite <- !app_assoc. cbn. rewrite !existsb_app, HLp, HLf. auto.
    - unfold bind at 1 in Hr. rewrite in_night_mode_reads_the_hour in Hr.
      cbn [sent_items steps trace] in Hr.
      destruct (night_window _ _ _).
      + subst r. exists (EvLog INFO JobStarted :: L ++ [EvLog INFO NightSkipJob]).
        cbn. rewrite <- !app_assoc. cbn. rewrite !existsb_app, HLp, HLf. auto.
      + unfold bind at 1 in Hr. rewrite count_sent_last_24h_runs in Hr.
        cbn [sent_items steps trace] in Hr. cbv zeta in Hr.
        destruct (sqlite_fails env _).
        * subst r.
          exists (EvLog INFO JobStarted :: L ++
                  [EvSql (SqlCount (utc_now env (S (S (steps w))) - hours24))]).
          cbn. rewrite <- !app_assoc. cbn. rewrite !existsb_app, HLp, HLf. auto.
        * unfold cap_check_instant in Hcap. cbn [Nat.add] in Hcap.
          set (n := count_since _ (sent_items w)) in *.
          destruct (Z.leb_spec (Z.max 0 (DAILY_MAX_POSTS cfg - n)) 0) as [_ | Hpos];
            [| lia].
          subst r.
          exists (EvLog INFO JobStarted :: L ++
                  [EvSql (SqlCount (utc_now env (S (S (steps w))) - hours24));
                   EvLog INFO (DailyTargetReached n)]).
          cbn. rewrite <- !app_assoc. cbn. rewrite !existsb_app, HLp, HLf. auto.
    - subst r. exists (EvLog INFO JobStarted :: L).
      cbn. rewrite <- !app_assoc. cbn. auto. }
  specialize (Hgoal _ eq_refl).
  destruct Hgoal as [tl [Ht [Htr [Hp Hf]]]].
  rewrite (new_events_of _ w tl Htr). auto.
Qed.

Lemma daily_cap_reached_admits_nothing_witness :
  let cfg := mkConfig "/app/sources.yaml" 3 1 2 0 7 in
  let w := initial_world [mkRow "http://a/0" "http://a/0" "a" "T0" 900] in
  sent_items (snd (main_job cfg calm_env w)) = sent_items w /\
  existsb is_post (new_events (main_job cfg calm_env) w) = false /\
  existsb is_fetch (new_events (main_job cfg calm_env) w) = false.
Proof.
  intros cfg w.
  apply (daily_cap_reached_admits_nothing cfg calm_env w).
  vm_compute. discriminate.
Defined.

(** ** Failed deliveries *)

Lemma safe_send_html_fails (env : Env) (text : string) (w : World) :
  delivery_fails env text w ->
  exists w2,
    safe_send_html env text w = (Ret false, w2) /\
    sent_items w2 = sent_items w.
Proof.
  intros Hfail.
  destruct Hfail as [H | [H | [[ra H] H2]]].
  - cbv [safe_send_html send_message_telegram bind emit ask log sleep ret fst];
      cbn [sent_items steps trace].
    rewrite H. eexists. split; reflexivity.
  - cbv [safe_send_html send_message_telegram bind emit ask log sleep ret fst];
      cbn [sent_items steps trace].
    rewrite H. eexists. split; reflexivity.
  - cbv [safe_send_html send_message_telegram bind emit ask log sleep ret fst];
      cbn [sent_items steps trace].
    rewrite H. cbn [sent_items steps trace].
    destruct (telegram_post env (S (steps w)) text);
      try congruence; eexists; split; reflexivity.
Qed.

(** C6.  When an admitted item is not delivered (Telegram answers with a
    hard failure, the request raises, or the retry after a rate limit is not
    accepted), the table is as it was before the item was looked at, and
    after the five-second cooldown the loop goes on with the next item with
    the same [posts_left] and the same count of sent items. *)
Theorem failed_delivery_changes_nothing (cfg : Config) (env : Env) (src : Source)
    (e : Entry) (rest : list Entry) (p sent : Z) (w w1 : World) :
  policy_check cfg env e p w = (Ret Admit, w1) ->
  delivery_fails env (render_message env src e) w1 ->
  exists w2,
    safe_send_html env (render_message env src e) w1 = (Ret false, w2) /\
    sent_items w2 = sent_items w /\
    process_entries cfg env src (e :: rest) p sent w =
    process_entries cfg env src rest p sent
      (mkWorld (sent_items w) (steps w2) (trace w2 ++ [EvSleep Cooldown5])).
Proof.
  intros Hcheck Hfail.
  destruct (safe_send_html_fails env _ w1 Hfail) as [w2 [Hsend Htab]].
  assert (Hkeep : sent_items w1 = sent_items w).
  { pose proof (keeps_policy_check cfg env e p w) as H.
    now rewrite Hcheck in H. }
  exists w2. split; [exact Hsend |]. split; [congruence |].
  cbn [process_entries]. unfold bind at 1. rewrite Hcheck.
  unfold bind at 1. rewrite Hsend.
  unfold bind at 1. unfold sleep, emit. cbn [fst snd].
  rewrite Htab, Hkeep. reflexivity.
Qed.

Lemma failed_delivery_changes_nothing_witness :
  let env := refusing_env in
  let src := mkSource (YStr "A") "DEV" in
  let e := mkEntry "T1" "S1" "http://a/1" "" in
  let rest := [mkEntry "T2" "" "http://a/2" ""] in
  let w := initial_world [] in
  let w1 := snd (policy_check default_cfg env e 3 w) in
  exists w2,
    safe_send_html env (render_message env src e) w1 = (Ret false, w2) /\
    sent_items w2 = sent_items w /\
    process_entries default_cfg env src (e :: rest) 3 0 w =
    process_entries default_cfg env src rest 3 0
      (mkWorld (sent_items w) (steps w2) (trace w2 ++ [EvSleep Cooldown5])).
Proof.
  intros env src e rest w w1.
  apply (failed_delivery_changes_nothing default_cfg env src e rest 3 0 w w1).
  - vm_compute. reflexivity.
  - left. vm_compute. reflexivity.
Defined.

(** ** Loading the sources *)

Lemma load_empty_config (env : Env) (path : string) (w : World) :
  empty_config (sources_file env (steps w) path) ->
  load_sources_from_yaml env path w =
  (Ret [], mkWorld (sent_items w) (S (steps w))
                   (trace w ++ loader_log (sources_file env (steps w) path) path)).
Proof.
  intros Hempty.
  unfold load_sources_from_yaml, bind, ask. cbn [sent_items steps trace].
  destruct Hempty as [H | [[doc [H Hd]] | [pairs [H Hs]]]]; rewrite H.
  - reflexivity.
  - unfold py_or. rewrite Hd. cbn. now rewrite app_nil_r.
  - destruct pairs as [| kv pairs']; [cbn; now rewrite app_nil_r |].
    cbn -[lookup]. unfold py_or. rewrite Hs. cbn. now rewrite app_nil_r.
Qed.

(** C7, as it stands, fails.  A sources file that YAML cannot parse makes
    the loader raise, and so does one that parses to a list instead of a
    mapping, or whose [sources] is a number; the exception leaves
    [main_job]. *)
Lemma loading_can_raise :
  let path := "/app/sources.yaml" in
  fst (load_sources_from_yaml (with_file FileYamlError) path (initial_world []))
    = Raised YAMLError /\
  fst (load_sources_from_yaml
         (with_file (FileDoc (YSeq [YStr "http://a/feed"]))) path (initial_world []))
    = Raised AttributeError /\
  fst (load_sources_from_yaml
         (with_file (FileDoc (YMap [(YStr "sources", YInt 5)]))) path (initial_world []))
    = Raised TypeError /\
  fst (main_job default_cfg (with_file FileYamlError) (initial_world []))
    = Raised YAMLError.
Proof. vm_compute. repeat split; reflexivity. Qed.

(** C7, amended.  When the sources file is missing, or holds an empty
    document, or a mapping whose [sources] is absent or empty, the loader
    returns the empty list without raising (logging a warning when the file
    is missing); [main_job] then logs the warning that no source was loaded
    and ends the cycle: nothing is fetched, nothing is posted, the table is
    not touched. *)
Theorem empty_config_skips_the_cycle (cfg : Config) (env : Env) (w : World) :
  let path := SOURCES_FILE cfg in
  let st := sources_file env (steps w) path in
  empty_config st ->
  fst (load_sources_from_yaml env path w) = Ret [] /\
  new_events (load_sources_from_yaml env path) w = loader_log st path /\
  fst (main_job cfg env w) = Ret tt /\
  sent_items (snd (main_job cfg env w)) = sent_items w /\
  new_events (main_job cfg env) w =
    EvLog INFO JobStarted :: loader_log st path
      ++ [EvLog WARNING (NoSourcesLoaded path)].
Proof.
  intros path st Hempty.
  pose proof (load_empty_config env path w Hempty) as Hload.
  fold st in Hload.
  assert (Hmain : main_job cfg env w =
            (Ret tt, mkWorld (sent_items w) (S (steps w))
                       (trace w ++ EvLog INFO JobStarted :: loader_log st path
                          ++ [EvLog WARNING (NoSourcesLoaded path)]))).
  { rewrite main_job_after_load. cbv zeta. fold path.
    rewrite (load_empty_config env path
               (mkWorld (sent_items w) (steps w) (trace w ++ [EvLog INFO JobStarted])))
      by exact Hempty.
    cbn [sent_items steps trace]. fold st.
    unfold log, emit. cbn [sent_items steps trace].
    rewrite <- !app_assoc. reflexivity. }
  rewrite Hload, Hmain. cbn [fst snd sent_items].
  repeat split.
  - apply new_events_of. rewrite Hload. reflexivity.
  - apply new_events_of. rewrite Hmain. reflexivity.
Qed.

Lemma empty_config_skips_the_cycle_witness :
  let env := with_file FileMissing in
  let w := initial_world [] in
  let path := "/app/sources.yaml" in
  fst (load_sources_from_yaml env path w) = Ret [] /\
  new_events (load_sources_from_yaml env path) w = loader_log FileMissing path /\
  fst (main_job default_cfg env w) = Ret tt /\
  sent_items (snd (main_job default_cfg env w)) = sent_items w /\
  new_events (main_job default_cfg env) w =
    EvLog INFO JobStarted :: loader_log FileMissing path
      ++ [EvLog WARNING (NoSourcesLoaded path)].
Proof.
  intros env w path.
  apply (empty_config_skips_the_cycle default_cfg env w).
  left. reflexivity.
Defined.

(** ** URLs without a host *)

Lemma domain_of_hostless (env : Env) (u : string) :
  no_hostname env u -> domain_from_url env u = "".
Proof.
  unfold domain_from_url. intros [H | [H | H]]; rewrite H; reflexivity.
Qed.

(** C10.  For a candidate whose URL has no host that [urlparse] can find,
    the domain is the empty string; the per-domain count is then 0 and is
    obtained without a query (the world is left as it is, whatever the state
    of the store); and with a positive per-domain cap the checks never end in
    the per-domain skip for it. *)
Theorem hostless_url_passes_domain_cap (cfg : Config) (env : Env) (e : Entry)
    (p : Z) (w : World) :
  no_hostname env (url e) ->
  domain_from_url env (url e) = "" /\
  (forall w0, count_sent_by_domain_last_24h env (domain_from_url env (url e)) w0
              = (Ret 0, w0)) /\
  (0 < DOMAIN_MAX_PER_24H cfg ->
   fst (policy_check cfg env e p w) <> Ret SkipDomainCap).
Proof.
  intros Hno.
  pose proof (domain_of_hostless env (url e) Hno) as Hdom.
  split; [exact Hdom |]. split.
  - intros w0. rewrite Hdom. reflexivity.
  - intros Hcap. unfold policy_check.
    destruct (p <=? 0); [cbn; discriminate |].
    destruct (str_empty (url e)); [cbn; discriminate |].
    unfold bind at 1. rewrite in_night_mode_reads_the_hour.
    destruct (night_window _ _ _); [cbn; discriminate |].
    unfold bind at 1. rewrite count_sent_last_24h_runs. cbv zeta.
    destruct (sqlite_fails env _); [cbn; discriminate |].
    destruct (Z.max 0 _ <=? 0); [cbn; discriminate |].
    destruct (Z.min _ _ <=? 0); [cbn; discriminate |].
    unfold bind at 1.
    destruct (already_sent env (url e) _) as [[[|] | ex] w3];
      [cbn; discriminate | | cbn; discriminate].
    rewrite Hdom. cbn.
    destruct (Z.leb_spec (DOMAIN_MAX_PER_24H cfg) 0) as [Hle | _]; [lia |].
    cbn. discriminate.
Qed.

Lemma hostless_url_passes_domain_cap_witness :
  let e := mkEntry "T" "" "mailto:someone" "" in
  let w := initial_world [] in
  domain_from_url calm_env (url e) = "" /\
  (forall w0, count_sent_by_domain_last_24h calm_env (domain_from_url calm_env (url e)) w0
              = (Ret 0, w0)) /\
  (0 < DOMAIN_MAX_PER_24H default_cfg ->
   fst (policy_check default_cfg calm_env e 3 w) <> Ret SkipDomainCap).
Proof.
  intros e w.
  apply (hostless_url_passes_domain_cap default_cfg calm_env e 3 w).
  right. left. reflexivity.
Defined.

(** * Further properties of the code *)

(** ** HTML escaping *)

Lemma count_char_app (c : ascii) (a b : string) :
  count_char c (a ++ b)%string = (count_char c a + count_char c b)%nat.
Proof.
  induction a as [| d a IH]; simpl; [reflexivity |].
  rewrite IH. lia.
Qed.

(** Replacing [old] removes it from the text and brings in, for each
    occurrence, what [new] holds. *)
Lemma count_char_replace (c old : ascii) (new s : string) :
  count_char c (replace_char old new s) =
  ((if Ascii.eqb old c then 0 else count_char c s)
   + count_char old s * count_char c new)%nat.
Proof.
  induction s as [| d s IH]; simpl.
  - destruct (Ascii.eqb old c); reflexivity.
  - destruct (Ascii.eqb_spec d old) as [-> | Hne].
    + rewrite count_char_app, IH.
      destruct (Ascii.eqb_spec old c) as [-> | Hc]; simpl; lia.
    + simpl. rewrite IH.
      destruct (Ascii.eqb_spec old c) as [<- | Hc].
      * destruct (Ascii.eqb_spec d old); [contradiction | simpl; lia].
      * destruct (Ascii.eqb d c); simpl; lia.
Qed.

Lemma str_app_assoc (a b c : string) :
  ((a ++ b) ++ c)%string = (a ++ (b ++ c))%string.
Proof. induction a as [| d a IH]; simpl; [reflexivity | now rewrite IH]. Qed.

Lemma replace_char_app (old : ascii) (new a b : string) :
  replace_char old new (a ++ b)%string =
  (replace_char old new a ++ replace_char old new b)%string.
Proof.
  induction a as [| d a IH]; simpl; [reflexivity |].
  rewrite IH. destruct (Ascii.eqb d old); simpl; [| reflexivity].
  now rewrite str_app_assoc.
Qed.

Lemma replace_char_absent (old : ascii) (new s : string) :
  count_char old s = 0%nat -> replace_char old new s = s.
Proof.
  induction s as [| d s IH]; simpl; intros H; [reflexivity |].
  destruct (Ascii.eqb d old); [discriminate |].
  simpl in H. now rewrite IH.
Qed.

(** The test for the empty string at the head of [escape_html_text] does
    not change what it computes. *)
Lemma escape_html_text_unfold (s : string) :
  escape_html_text s =
  replace_char ">"%char "&gt;"
    (replace_char "<"%char "&lt;" (replace_char "&"%char "&amp;" s)).
Proof. destruct s; reflexivity. Qed.

Lemma escape_no_brackets (s : string) :
  count_char "<"%char (escape_html_text s) = 0%nat /\
  count_char ">"%char (escape_html_text s) = 0%nat.
Proof.
  rewrite escape_html_text_unfold.
  repeat rewrite count_char_replace. cbn. lia.
Qed.

(** X1.  The text [escape_html_text] returns holds no angle bracket, and
    one ampersand for each ampersand or angle bracket of its argument: every
    special character has become one entity. *)
Theorem escape_html_text_is_safe (s : string) :
  count_char "<"%char (escape_html_text s) = 0%nat /\
  count_char ">"%char (escape_html_text s) = 0%nat /\
  count_char "&"%char (escape_html_text s) =
    (count_char "&"%char s + count_char "<"%char s + count_char ">"%char s)%nat.
Proof.
  destruct (escape_no_brackets s) as [Hlt Hgt].
  split; [exact Hlt |]. split; [exact Hgt |].
  rewrite escape_html_text_unfold.
  repeat rewrite count_char_replace. cbn. lia.
Qed.

(** X2.  Escaping goes through concatenation: the escape of two texts put
    together is the two escapes put together. *)
Theorem escape_html_text_app (a b : string) :
  escape_html_text (a ++ b)%string =
  (escape_html_text a ++ escape_html_text b)%string.
Proof.
  rewrite !escape_html_text_unfold.
  now rewrite !replace_char_app.
Qed.

(** X3.  A text without ampersand and angle brackets is returned as it
    is. *)
Theorem escape_html_text_plain (s : string) :
  count_char "&"%char s = 0%nat ->
  count_char "<"%char s = 0%nat ->
  count_char ">"%char s = 0%nat ->
  escape_html_text s = s.
Proof.
  intros Ha Hl Hg. rewrite escape_html_text_unfold.
  rewrite (replace_char_absent "&"%char) by exact Ha.
  rewrite (replace_char_absent "<"%char) by exact Hl.
  now rewrite (replace_char_absent ">"%char) by exact Hg.
Qed.

Lemma escape_html_text_plain_witness :
  escape_html_text "Rust 1.80 released" = "Rust 1.80 released".
Proof.
  apply (escape_html_text_plain "Rust 1.80 released"); reflexivity.
Defined.

(** X4.  Whatever the feed put in the title, the summary, the URL and the
    tag, the message built for an entry holds exactly four opening and four
    closing angle brackets: those of its own bold and link markup. *)
Theorem render_message_markup (env : Env) (src : Source) (e : Entry) :
  count_char "<"%char (render_message env src e) = 4%nat /\
  count_char ">"%char (render_message env src e) = 4%nat.
Proof.
  unfold render_message. cbv zeta.
  destruct (str_empty (escape_html_text _));
    repeat rewrite count_char_app;
    repeat match goal with
           | |- context [count_char _ (escape_html_text ?t)] =>
               let H := fresh in
               pose proof (escape_no_brackets t) as H;
               destruct H as [-> ->]
           end;
    split; reflexivity.
Qed.

(** ** Truncation *)

(** X5.  After the truncation step a summary never has more than 300
    characters, and truncating again changes nothing. *)
Theorem truncate_summary_bounded (s : string) :
  (String.length (truncate_summary s) <= 300)%nat /\
  truncate_summary (truncate_summary s) = truncate_summary s.
Proof.
  assert (Hlen : (String.length (truncate_summary s) <= 300)%nat).
  { unfold truncate_summary.
    destruct (Z.ltb_spec 300 (Z.of_nat (String.length s))) as [Hlong | Hshort].
    - rewrite length_append, length_str_take by lia. simpl. lia.
    - lia. }
  split; [exact Hlen |].
  unfold truncate_summary at 1.
  destruct (Z.ltb_spec 300 (Z.of_nat (String.length (truncate_summary s))));
    [lia | reflexivity].
Qed.

(** ** Feed entries *)

Lemma policy_check_with_url (cfg : Config) (env : Env) (e : Entry) (p : Z) (w : World) :
  str_empty (url e) = false ->
  fst (policy_check cfg env e p w) <> Ret SkipNoUrl.
Proof.
  intros Hurl. unfold policy_check. rewrite Hurl.
  destruct (p <=? 0); [cbn; discriminate |].
  unfold bind at 1. rewrite in_night_mode_reads_the_hour.
  destruct (night_window _ _ _); [cbn; discriminate |].
  unfold bind at 1. rewrite count_sent_last_24h_runs. cbv zeta.
  destruct (sqlite_fails env _); [cbn; discriminate |].
  destruct (Z.max 0 _ <=? 0); [cbn; discriminate |].
  destruct (Z.min _ _ <=? 0); [cbn; discriminate |].
  unfold bind at 1.
  destruct (already_sent env (url e) _) as [[[|] | ex] w3];
    [cbn; discriminate | | cbn; discriminate].
  unfold bind at 1.
  destruct (count_sent_by_domain_last_24h env _ w3) as [[n | ex] w4];
    [| cbn; discriminate].
  destruct (DOMAIN_MAX_PER_24H cfg <=? n); cbn; discriminate.
Qed.

Lemma feed_items_url (raws : list RawEntry) (e : Entry) :
  In e (feed_items raws) -> str_empty (url e) = false.
Proof.
  induction raws as [| r raws IH]; simpl; [contradiction |].
  destruct (str_empty (str_or (opt_str (raw_link r)) (opt_str (raw_id r)))) eqn:E.
  - exact IH.
  - intros [<- | Hin]; [exact E | exact (IH Hin)].
Qed.

(** X6.  [fetch_feed_entries] drops the feed entries that have neither link
    nor id: it returns no more items than the feed has entries, each with a
    URL that is not empty, so that the policy checks never skip a fetched
    item for lack of a URL. *)
Theorem fetched_items_have_urls (raws : list RawEntry) :
  (List.length (feed_items raws) <= List.length raws)%nat /\
  forall e, In e (feed_items raws) ->
    str_empty (url e) = false /\
    forall cfg env p w, fst (policy_check cfg env e p w) <> Ret SkipNoUrl.
Proof.
  split.
  - induction raws as [| r raws IH]; simpl; [lia |].
    destruct (str_empty _); simpl; lia.
  - intros e Hin.
    pose proof (feed_items_url raws e Hin) as Hurl.
    split; [exact Hurl |].
    intros cfg env p w. now apply policy_check_with_url.
Qed.

(** A feed entry with a link is kept under that link, and one with only an
    id under its id. *)
Lemma feed_items_link_first (r : RawEntry) (raws : list RawEntry) (l : string) :
  raw_link r = Some l -> str_empty l = false ->
  exists e, feed_items (r :: raws) = e :: feed_items raws /\ url e = l.
Proof.
  intros Hl Hne. simpl. rewrite Hl. simpl. unfold str_or at 1 2. rewrite Hne.
  rewrite Hne. eexists. split; [reflexivity |]. simpl.
  unfold str_or. now rewrite Hne.
Qed.

(** ** The list of sources *)

(** One turn of the loop of the loader. *)
Lemma collect_sources_step (env : Env) (pairs : list (yaml * yaml))
    (rest : list yaml) (out : list Source) (w : World) :
  collect_sources env (YMap pairs :: rest) out w =
  if truthy (lookup "url" pairs)
  then match chosen_tag pairs with
       | YStr t =>
           collect_sources env rest
             (out ++ [mkSource (lookup "url" pairs) (upper env t)]) w
       | _ => (Raised AttributeError, w)
       end
  else collect_sources env rest out w.
Proof.
  cbn [collect_sources]. unfold bind, chosen_tag, py_or. cbn [py_get ret].
  set (c := lookup "category" pairs).
  set (t := lookup "tag" pairs).
  set (n := lookup "name" pairs).
  destruct (truthy (lookup "url" pairs)); cbn [negb]; [| reflexivity].
  destruct (truthy c) eqn:Ec; cbn; rewrite ?Ec.
  - destruct c; reflexivity.
  - destruct (truthy t) eqn:Et; cbn; rewrite ?Et.
    + destruct t; reflexivity.
    + destruct (truthy n) eqn:En; cbn; rewrite ?En; [destruct n |]; reflexivity.
Qed.

Lemma collect_sources_not_mapping (env : Env) (item : yaml) (rest : list yaml)
    (out : list Source) (w : World) :
  (forall pairs, item <> YMap pairs) ->
  collect_sources env (item :: rest) out w = (Raised AttributeError, w).
Proof.
  intros H. destruct item; try reflexivity. now destruct (H pairs).
Qed.

Lemma collect_sources_keeps (env : Env) (P : Source -> Prop) :
  (forall u t, truthy u = true -> P (mkSource u (upper env t))) ->
  forall (items : list yaml) (out res : list Source) (w w' : World),
    Forall P out ->
    collect_sources env items out w = (Ret res, w') ->
    Forall P res.
Proof.
  intros HP items.
  induction items as [| s rest IH]; intros out res w w' Hout Hrun.
  - cbn in Hrun. inversion Hrun; subst. exact Hout.
  - destruct s; try discriminate.
    rewrite collect_sources_step in Hrun.
    destruct (truthy (lookup "url" pairs)) eqn:Eu;
      [| exact (IH _ _ _ _ Hout Hrun)].
    destruct (chosen_tag pairs); try discriminate.
    apply (IH _ _ _ _) in Hrun; [exact Hrun |].
    apply Forall_app. split; [exact Hout |].
    constructor; [now apply HP | constructor].
Qed.



Lemma chosen_tag_text (pairs : list (yaml * yaml)) :
  text_or_absent (lookup "category" pairs) ->
  text_or_absent (lookup "tag" pairs) ->
  text_or_absent (lookup "name" pairs) ->
  exists t, chosen_tag pairs = YStr t.
Proof.
  unfold chosen_tag, py_or, text_or_absent.
  intros [Hc | [c ->]] [Ht | [t ->]] [Hn | [n ->]];
    repeat match goal with
           | H : truthy _ = false |- _ => rewrite H
           end;
    cbn;
    repeat match goal with
           | |- context [str_empty ?x] => destruct (str_empty x); cbn
           end;
    eauto.
Qed.

Lemma collect_readable (env : Env) (items : list yaml) :
  Forall readable_item items ->
  forall (out : list Source) (w : World),
    collect_sources env items out w =
    (Ret (out ++ map (source_of env) (filter has_url items)), w).
Proof.
  induction 1 as [| item rest [pairs [-> [Hc [Ht Hn]]]] _ IH]; intros out w.
  - cbn. now rewrite app_nil_r.
  - rewrite collect_sources_step. cbn [filter has_url].
    destruct (truthy (lookup "url" pairs)); [| apply IH].
    destruct (chosen_tag_text pairs Hc Ht Hn) as [t Etag].
    cbn [map source_of]. rewrite Etag, IH, <- app_assoc. reflexivity.
Qed.

(** X8.  On a document whose [sources] is a list of mappings with textual
    [category], [tag] and [name], the loader does not raise: it returns, in
    the order of the file, one source for each item that gives a URL, tagged
    with the upper case, [t.upper()], of the first [t] of [category], [tag]
    and [name] that is there, and drops the items without URL. *)
Theorem load_readable_sources (env : Env) (path : string) (w : World)
    (pairs : list (yaml * yaml)) (items : list yaml) :
  sources_file env (steps w) path = FileDoc (YMap pairs) ->
  lookup "sources" pairs = YSeq items ->
  Forall readable_item items ->
  fst (load_sources_from_yaml env path w) =
  Ret (map (source_of env) (filter has_url items)).
Proof.
  intros Hfile Hsrc Hread.
  unfold load_sources_from_yaml, bind, ask. cbn [sent_items steps trace].
  rewrite Hfile.
  destruct pairs as [| kv pairs']; [discriminate |].
  cbn -[lookup]. rewrite Hsrc.
  destruct items as [| item items']; [reflexivity |].
  cbn -[collect_sources filter].
  now rewrite (collect_readable env _ Hread).
Qed.

Lemma load_readable_sources_witness :
  fst (load_sources_from_yaml calm_env "/app/sources.yaml" (initial_world [])) =
  Ret (map (source_of calm_env)
         (filter has_url
            [YMap [(YStr "url", YStr "A"); (YStr "category", YStr "dev")];
             YMap [(YStr "url", YStr "B")]])).
Proof.
  apply (load_readable_sources calm_env "/app/sources.yaml" (initial_world [])
           [(YStr "sources",
             YSeq [YMap [(YStr "url", YStr "A"); (YStr "category", YStr "dev")];
                   YMap [(YStr "url", YStr "B")]])]).
  - reflexivity.
  - reflexivity.
  - repeat constructor;
      eexists; (split; [reflexivity |]);
      repeat split; solve [left; reflexivity | right; eexists; reflexivity].
Defined.

(** ** Sending *)

(** X9.  [safe_send_html] never raises and never touches the table.  It
    posts once when the first answer is not a rate limit, and returns true
    exactly when that answer is 200.  On a rate limit it logs, sleeps the
    announced delay plus one second (30 when the answer names none), posts a
    second and last time, and returns true exactly when the second answer is
    200. *)
Theorem safe_send_html_outcome (env : Env) (text : string) (w : World) :
  let r1 := telegram_post env (steps w) text in
  let r2 := telegram_post env (S (steps w)) text in
  fst (safe_send_html env text w) =
    Ret match r1 with
        | Status200 => true
        | Status429 _ => match r2 with Status200 => true | _ => false end
        | _ => false
        end /\
  sent_items (snd (safe_send_html env text w)) = sent_items w /\
  new_events (safe_send_html env text) w =
    match r1 with
    | Status200 => [EvPost text]
    | Status429 ra =>
        let n := match ra with Some n => n | None => 30 end in
        [EvPost text; EvLog WARNING (RateLimited n);
         EvSleep (RetryAfterPlus1 n); EvPost text]
        ++ match r2 with
           | Status200 => []
           | _ => [EvLog WARNING FailedAfterRetry]
           end
    | _ => [EvPost text; EvLog WARNING SendFailed]
    end.
Proof.
  intros r1 r2.
  assert (H : exists tl,
             fst (safe_send_html env text w) =
               Ret match r1 with
                   | Status200 => true
                   | Status429 _ => match r2 with Status200 => true | _ => false end
                   | _ => false
                   end /\
             sent_items (snd (safe_send_html env text w)) = sent_items w /\
             trace (snd (safe_send_html env text w)) = trace w ++ tl /\
             tl = match r1 with
                  | Status200 => [EvPost text]
                  | Status429 ra =>
                      let n := match ra with Some n => n | None => 30 end in
                      [EvPost text; EvLog WARNING (RateLimited n);
                       EvSleep (RetryAfterPlus1 n); EvPost text]
                      ++ match r2 with
                         | Status200 => []
                         | _ => [EvLog WARNING FailedAfterRetry]
                         end
                  | _ => [EvPost text; EvLog WARNING SendFailed]
                  end).
  { subst r1 r2.
    cbv [safe_send_html send_message_telegram bind emit ask log sleep ret];
      cbn [sent_items steps trace].
    destruct (telegram_post env (steps w) text) as [| ra | |];
      cbn [fst snd sent_items steps trace].
    - eexists. repeat split.
    - destruct (telegram_post env (S (steps w)) text);
        cbn [fst snd sent_items steps trace];
        eexists; (split; [reflexivity |]); (split; [reflexivity |]);
        (split; [| reflexivity]); rewrite <- ?app_assoc; reflexivity.
    - eexists. (split; [reflexivity |]). (split; [reflexivity |]).
      split; [| reflexivity]. rewrite <- ?app_assoc. reflexivity.
    - eexists. (split; [reflexivity |]). (split; [reflexivity |]).
      split; [| reflexivity]. rewrite <- ?app_assoc. reflexivity. }
  destruct H as [tl [H1 [H2 [H3 H4]]]].
  split; [exact H1 |]. split; [exact H2 |].
  rewrite (new_events_of _ w tl H3). exact H4.
Qed.

(** ** The blackout window *)

(** X10.  With different start and end hours, exchanging them turns the
    blackout window into its complement: an hour is in the window from
    [start] to [end] exactly when it is not in the window from [end] to
    [start]. *)
Theorem night_window_swap (start end_ h : Z) :
  start <> end_ ->
  night_window end_ start h = negb (night_window start end_ h).
Proof.
  intros Hne. unfold night_window.
  destruct (Z.ltb_spec start end_), (Z.ltb_spec end_ start),
    (Z.leb_spec start h), (Z.leb_spec end_ h),
    (Z.ltb_spec h end_), (Z.ltb_spec h start); cbn; try reflexivity; lia.
Qed.

Lemma night_window_swap_witness :
  night_window 6 22 12 = negb (night_window 22 6 12).
Proof. apply (night_window_swap 22 6 12). lia. Defined.

Lemma hour_in_day (h : Z) : 0 <= h < 24 -> In h hours_of_day.
Proof.
  intros Hh. unfold hours_of_day.
  apply in_map_iff. exists (Z.to_nat h). split; [lia |].
  apply in_seq. lia.
Qed.

Lemma blackout_hours_table :
  forallb (fun s =>
    forallb (fun e =>
      blackout_hours s e =? (if s =? e then 24 else (e - s) mod 24))
      hours_of_day)
    hours_of_day = true.
Proof. vm_compute. reflexivity. Qed.

(** X11.  For start and end hours on the dial, the blackout covers
    [(end - start) mod 24] hours of the day when they differ, and all 24
    when they are equal. *)
Theorem blackout_length (start end_ : Z) :
  0 <= start < 24 -> 0 <= end_ < 24 ->
  blackout_hours start end_ =
  if start =? end_ then 24 else (end_ - start) mod 24.
Proof.
  intros Hs He.
  pose proof blackout_hours_table as Htab.
  rewrite forallb_forall in Htab.
  specialize (Htab start (hour_in_day start Hs)).
  rewrite forallb_forall in Htab.
  specialize (Htab end_ (hour_in_day end_ He)).
  now apply Z.eqb_eq in Htab.
Qed.

Lemma blackout_length_witness :
  blackout_hours 22 6 = if 22 =? 6 then 24 else (6 - 22) mod 24.
Proof. apply (blackout_length 22 6); lia. Defined.

(** ** Night mode during a cycle *)

Lemma policy_check_at_night (cfg : Config) (env : Env) (e : Entry) (p : Z) (w : World) :
  night_at cfg env (steps w) = true ->
  policy_check cfg env e p w =
  if p <=? 0 then (Ret StopRunBudget, w)
  else if str_empty (url e) then (Ret SkipNoUrl, w)
  else (Ret StopNightMode,
        mkWorld (sent_items w) (S (steps w))
                (trace w ++ [EvLog INFO NightSkipPosting])).
Proof.
  unfold night_at. intros Hnight. unfold policy_check.
  destruct (p <=? 0); [reflexivity |].
  destruct (str_empty (url e)); [reflexivity |].
  unfold bind at 1. rewrite in_night_mode_reads_the_hour, Hnight.
  reflexivity.
Qed.

Lemma process_entries_at_night (cfg : Config) (env : Env) (src : Source)
    (entries : list Entry) (p sent : Z) (w : World) :
  night_at cfg env (steps w) = true ->
  exists w',
    process_entries cfg env src entries p sent w = (Ret sent, w') /\
    sent_items w' = sent_items w /\
    (steps w <= steps w' <= S (steps w))%nat /\
    (trace w' = trace w \/ trace w' = trace w ++ [EvLog INFO NightSkipPosting]).
Proof.
  intros Hnight.
  induction entries as [| e rest IH].
  - exists w. cbn. repeat split; auto.
  - cbn [process_entries]. unfold bind.
    rewrite (policy_check_at_night cfg env e p w Hnight).
    destruct (p <=? 0).
    + exists w. repeat split; auto.
    + destruct (str_empty (url e)).
      * exact IH.
      * eexists. split; [reflexivity |]. cbn. repeat split; auto.
Qed.

Lemma process_source_at_night (cfg : Config) (env : Env) (src : Source)
    (p : Z) (w : World) :
  night_at cfg env (S (steps w)) = true ->
  exists w' tl,
    process_source cfg env src p w = (Ret 0, w') /\
    sent_items w' = sent_items w /\
    (steps w <= steps w')%nat /\
    trace w' = trace w ++ tl /\
    existsb is_post tl = false.
Proof.
  intros Hnight.
  unfold process_source, fetch_feed_entries.
  cbv [bind try_ emit ask raise ret log]. cbn [sent_items steps trace].
  destruct (feedparser_parse env (steps w) (src_url src)) as [raws |].
  - set (w1 := mkWorld (sent_items w) (S (steps w)) (trace w ++ [EvFetch (src_url src)])).
    destruct (process_entries_at_night cfg env src (feed_items raws) p 0 w1 Hnight)
      as [w' [Hrun [Htab [Hst Htr]]]].
    rewrite Hrun. subst w1. cbn [sent_items steps trace] in *.
    destruct Htr as [Htr | Htr].
    + exists w', [EvFetch (src_url src)]. repeat split; auto; lia.
    + exists w', [EvFetch (src_url src); EvLog INFO NightSkipPosting].
      rewrite Htr, <- app_assoc. repeat split; auto; lia.
  - eexists. exists [EvFetch (src_url src); EvLog WARNING (FetchFailed (src_url src))].
    split; [reflexivity |]. cbn [sent_items steps trace].
    rewrite <- app_assoc. repeat split; auto.
Qed.

(** X12.  Once the clock shows a blackout hour and keeps showing one, the
    loop over the sources delivers nothing more: it ends without raising,
    with the run budget it had, the table untouched and no request made to
    Telegram. *)
Theorem night_stops_all_posting (cfg : Config) (env : Env)
    (sources : list Source) (p : Z) (w : World) :
  (forall n, (steps w <= n)%nat -> night_at cfg env n = true) ->
  fst (run_sources cfg env sources p w) = Ret p /\
  sent_items (snd (run_sources cfg env sources p w)) = sent_items w /\
  existsb is_post (new_events (run_sources cfg env sources p) w) = false.
Proof.
  intros Hnight.
  assert (H : exists w' tl,
             run_sources cfg env sources p w = (Ret p, w') /\
             sent_items w' = sent_items w /\
             trace w' = trace w ++ tl /\
             existsb is_post tl = false).
  { revert w Hnight.
    induction sources as [| s rest IH]; intros w Hnight.
    - exists w, []. cbn. rewrite app_nil_r. auto.
    - cbn [run_sources].
      destruct (p <=? 0).
      + exists w, []. cbn. rewrite app_nil_r. auto.
      + destruct (process_source_at_night cfg env s p w (Hnight _ (Nat.le_succ_diag_r _)))
          as [w1 [tl1 [Hrun [Htab [Hst [Htr Hp]]]]]].
        unfold bind at 1. unfold try_ at 1. rewrite Hrun.
        replace (p - 0) with p by lia.
        destruct (IH w1) as [w2 [tl2 [Hrun2 [Htab2 [Htr2 Hp2]]]]].
        { intros n Hn. apply Hnight. lia. }
        exists w2, (tl1 ++ tl2). rewrite Hrun2. split; [reflexivity |].
        split; [congruence |].
        rewrite Htr2, Htr, <- app_assoc, existsb_app, Hp, Hp2. auto. }
  destruct H as [w' [tl [Hrun [Htab [Htr Hp]]]]].
  rewrite Hrun. cbn [fst snd]. repeat split; auto.
  rewrite (new_events_of _ w tl); [exact Hp |]. now rewrite Hrun.
Qed.

Lemma night_stops_all_posting_witness :
  let env := midnight_env 0 in
  let w := initial_world [] in
  let sources := [mkSource (YStr "A") "DEV"; mkSource (YStr "B") ""] in
  fst (run_sources default_cfg env sources 3 w) = Ret 3 /\
  sent_items (snd (run_sources default_cfg env sources 3 w)) = sent_items w /\
  existsb is_post (new_events (run_sources default_cfg env sources 3) w) = false.
Proof.
  intros env w sources.
  apply (night_stops_all_posting default_cfg env sources 3 w).
  intros n _. reflexivity.
Defined.

(** X13.  A cycle that starts in a blackout hour fetches nothing, posts
    nothing and leaves the table as it is. *)
Theorem night_cycle_does_nothing (cfg : Config) (env : Env) (w : World) :
  night_at cfg env (S (steps w)) = true ->
  sent_items (snd (main_job cfg env w)) = sent_items w /\
  existsb is_post (new_events (main_job cfg env) w) = false /\
  existsb is_fetch (new_events (main_job cfg env) w) = false.
Proof.
  unfold night_at. intros Hnight.
  set (L := match sources_file env (steps w) (SOURCES_FILE cfg) with
            | FileMissing => [EvLog WARNING (SourcesNotFound (SOURCES_FILE cfg))]
            | _ => []
            end).
  assert (HL : existsb is_post L = false /\ existsb is_fetch L = false)
    by (subst L; destruct (sources_file env (steps w) (SOURCES_FILE cfg)); auto).
  destruct HL as [HLp HLf].
  assert (Hgoal : forall r, r = main_job cfg env w ->
            exists tl,
              sent_items (snd r) = sent_items w /\
              trace (snd r) = trace w ++ tl /\
              existsb is_post tl = false /\ existsb is_fetch tl = false).
  { intros r Hr. rewrite main_job_after_load in Hr. cbv zeta in Hr.
    pose proof (load_sources_effect env (SOURCES_FILE cfg)
      (mkWorld (sent_items w) (steps w) (trace w ++ [EvLog INFO JobStarted]))) as Hload.
    cbn [sent_items steps trace] in Hload. fold L in Hload.
    destruct (load_sources_from_yaml env (SOURCES_FILE cfg) _) as [[[| s ss] | e] w1];
      cbn [snd] in Hload; subst w1.
    - subst r.
      exists (EvLog INFO JobStarted :: L ++ [EvLog WARNING (NoSourcesLoaded (SOURCES_FILE cfg))]).
      cbn. rewrite <- !app_assoc. cbn. rewrite !existsb_app, HLp, HLf. auto.
    - unfold bind at 1 in Hr. rewrite in_night_mode_reads_the_hour in Hr.
      cbn [sent_items steps trace] in Hr. rewrite Hnight in Hr.
      subst r. exists (EvLog INFO JobStarted :: L ++ [EvLog INFO NightSkipJob]).
      cbn. rewrite <- !app_assoc. cbn. rewrite !existsb_app, HLp, HLf. auto.
    - subst r. exists (EvLog INFO JobStarted :: L).
      cbn. rewrite <- !app_assoc. cbn. auto. }
  specialize (Hgoal _ eq_refl).
  destruct Hgoal as [tl [Ht [Htr [Hp Hf]]]].
  rewrite (new_events_of _ w tl Htr). auto.
Qed.

Lemma night_cycle_does_nothing_witness :
  let env := midnight_env 0 in
  let w := initial_world [] in
  sent_items (snd (main_job default_cfg env w)) = sent_items w /\
  existsb is_post (new_events (main_job default_cfg env) w) = false /\
  existsb is_fetch (new_events (main_job default_cfg env) w) = false.
Proof.
  intros env w.
  apply (night_cycle_does_nothing default_cfg env w).
  reflexivity.
Defined.

(** ** A feed that cannot be fetched *)

(** X14.  When the feed of a source cannot be fetched, [process_source]
    does not raise: it logs a warning and returns 0, without any query,
    post or change to the table, and the orchestrator goes on with the
    sources that follow with the same run budget. *)
Theorem fetch_failure_is_contained (cfg : Config) (env : Env) (s : Source)
    (rest : list Source) (p : Z) (w : World) :
  feedparser_parse env (steps w) (src_url s) = None ->
  let w' := mkWorld (sent_items w) (S (steps w))
              (trace w ++ [EvFetch (src_url s);
                           EvLog WARNING (FetchFailed (src_url s))]) in
  process_source cfg env s p w = (Ret 0, w') /\
  (0 < p -> run_sources cfg env (s :: rest) p w = run_sources cfg env rest p w').
Proof.
  intros Hfail w'.
  assert (Hrun : process_source cfg env s p w = (Ret 0, w')).
  { unfold process_source, fetch_feed_entries.
    cbv [bind try_ emit ask raise ret log]. cbn [sent_items steps trace].
    rewrite Hfail. subst w'. cbn [sent_items steps trace].
    rewrite <- ?app_assoc. reflexivity. }
  split; [exact Hrun |].
  intros Hp. cbn [run_sources].
  destruct (Z.leb_spec p 0) as [Hle | _]; [lia |].
  unfold bind at 1. unfold try_ at 1. rewrite Hrun.
  now replace (p - 0) with p by lia.
Qed.

Lemma fetch_failure_is_contained_witness :
  let s := mkSource (YStr "C") "" in
  let w := initial_world [] in
  let w' := mkWorld (sent_items w) (S (steps w))
              (trace w ++ [EvFetch (src_url s);
                           EvLog WARNING (FetchFailed (src_url s))]) in
  process_source default_cfg calm_env s 3 w = (Ret 0, w') /\
  (0 < 3 -> run_sources default_cfg calm_env [s; mkSource (YStr "B") ""] 3 w =
            run_sources default_cfg calm_env [mkSource (YStr "B") ""] 3 w').
Proof.
  intros s w w'.
  apply (fetch_failure_is_contained default_cfg calm_env s
           [mkSource (YStr "B") ""] 3 w).
  reflexivity.
Defined.

(** ** What admission means *)

Lemma already_sent_runs (env : Env) (u : string) (w : World) :
  already_sent env u w =
  let w' := mkWorld (sent_items w) (S (steps w))
                    (trace w ++ [EvSql (SqlExists (norm_hash env u))]) in
  if sqlite_fails env (steps w) then (Raised SqliteError, w')
  else (Ret (has_key (norm_hash env u) (sent_items w)), w').
Proof.
  unfold already_sent, sqlite, bind, ask, emit, raise. cbn.
  destruct (sqlite_fails env (steps w)); reflexivity.
Qed.

Lemma count_domain_runs (env : Env) (d : string) (w : World) :
  str_empty d = false ->
  count_sent_by_domain_last_24h env d w =
  let cutoff := utc_now env (steps w) - hours24 in
  let w' := mkWorld (sent_items w) (S (S (steps w)))
                    (trace w ++ [EvSql (SqlCountDomain d cutoff)]) in
  if sqlite_fails env (S (steps w)) then (Raised SqliteError, w')
  else (Ret (count_domain_since d cutoff (sent_items w)), w').
Proof.
  intros Hd.
  unfold count_sent_by_domain_last_24h. rewrite Hd.
  unfold now_utc, sqlite, bind, ask, emit, raise. cbn.
  destruct (sqlite_fails env (S (steps w))); reflexivity.
Qed.

(** The outcome of the checks, condition by condition. *)
Lemma policy_check_verdict (cfg : Config) (env : Env) (e : Entry) (p : Z) (w : World) :
  let n := steps w in
  let t := sent_items w in
  let count := count_since (utc_now env (S n) - hours24) t in
  let dcount := domain_count env (domain_from_url env (url e)) (4 + n) t in
  fst (policy_check cfg env e p w) =
  if p <=? 0 then Ret StopRunBudget
  else if str_empty (url e) then Ret SkipNoUrl
  else if night_at cfg env n then Ret StopNightMode
  else if sqlite_fails env (S (S n)) then Raised SqliteError
  else if DAILY_MAX_POSTS cfg <=? count then Ret StopDailyCap
  else if MAX_POSTS_PER_RUN cfg <=? 0 then Ret StopEffective
  else if sqlite_fails env (3 + n) then Raised SqliteError
  else if has_key (norm_hash env (url e)) t then Ret SkipDuplicate
  else if andb (negb (str_empty (domain_from_url env (url e))))
               (sqlite_fails env (5 + n)) then Raised SqliteError
  else if DOMAIN_MAX_PER_24H cfg <=? dcount then Ret SkipDomainCap
  else Ret Admit.
Proof.
  intros n t count dcount. subst n t count dcount.
  unfold policy_check, night_at.
  destruct (Z.leb_spec p 0) as [Hp | Hp]; [reflexivity |].
  destruct (str_empty (url e)); [reflexivity |].
  unfold bind at 1. rewrite in_night_mode_reads_the_hour.
  destruct (night_window _ _ _); [reflexivity |].
  unfold bind at 1. rewrite count_sent_last_24h_runs. cbv zeta.
  cbn [sent_items steps trace].
  destruct (sqlite_fails env (S (S (steps w)))); [reflexivity |].
  set (count := count_since _ (sent_items w)).
  destruct (Z.leb_spec (DAILY_MAX_POSTS cfg) count) as [Hd | Hd].
  { destruct (Z.leb_spec (Z.max 0 (DAILY_MAX_POSTS cfg - count)) 0); [reflexivity | lia]. }
  destruct (Z.leb_spec (Z.max 0 (DAILY_MAX_POSTS cfg - count)) 0); [lia |].
  destruct (Z.leb_spec (MAX_POSTS_PER_RUN cfg) 0) as [Hm | Hm].
  { destruct (Z.leb_spec (Z.min (Z.min p (Z.max 0 (DAILY_MAX_POSTS cfg - count)))
                                (MAX_POSTS_PER_RUN cfg)) 0); [reflexivity | lia]. }
  destruct (Z.leb_spec (Z.min (Z.min p (Z.max 0 (DAILY_MAX_POSTS cfg - count)))
                              (MAX_POSTS_PER_RUN cfg)) 0); [lia |].
  unfold bind at 1. rewrite already_sent_runs. cbv zeta.
  cbn [sent_items steps trace].
  change (3 + steps w)%nat with (S (S (S (steps w)))).
  destruct (sqlite_fails env (S (S (S (steps w))))); [reflexivity |].
  destruct (has_key _ (sent_items w)); [reflexivity |].
  unfold bind at 1. unfold domain_count.
  destruct (str_empty (domain_from_url env (url e))) eqn:Ed.
  - unfold count_sent_by_domain_last_24h. rewrite Ed. cbn [ret negb andb].
    destruct (DOMAIN_MAX_PER_24H cfg <=? 0); reflexivity.
  - rewrite (count_domain_runs env _ _ Ed). cbv zeta.
    cbn [sent_items steps trace negb andb].
    change (5 + steps w)%nat with (S (S (S (S (S (steps w)))))).
    change (4 + steps w)%nat with (S (S (S (S (steps w))))).
    destruct (sqlite_fails env _); [reflexivity |].
    destruct (DOMAIN_MAX_PER_24H cfg <=? _); reflexivity.
Qed.

Ltac leb_cases :=
  repeat match goal with
         | |- context [?a <=? ?b] => destruct (Z.leb_spec a b)
         end.

(** X15.  An item is admitted only when every condition holds on the world
    its checks started in: run budget left, a URL, no blackout hour, fewer
    rows in the last 24 hours than the daily cap, a positive per-run cap, a
    URL that is not in the table, and fewer rows of its domain in the last
    24 hours than the per-domain cap.  In particular a URL already recorded
    is never admitted. *)
Theorem admitted_is_admissible (cfg : Config) (env : Env) (e : Entry) (p : Z)
    (w : World) :
  fst (policy_check cfg env e p w) = Ret Admit ->
  admissible cfg env e p w = true /\
  has_key (norm_hash env (url e)) (sent_items w) = false.
Proof.
  rewrite policy_check_verdict. cbv zeta. unfold admissible. cbv zeta.
  change (1 + steps w)%nat with (S (steps w)).
  destruct (Z.leb_spec p 0); [discriminate |].
  destruct (str_empty (url e)); [discriminate |].
  destruct (night_at cfg env (steps w)); [discriminate |].
  destruct (sqlite_fails env (S (S (steps w)))); [discriminate |].
  match goal with
  | |- context [DAILY_MAX_POSTS cfg <=? ?c] =>
      destruct (Z.leb_spec (DAILY_MAX_POSTS cfg) c); [discriminate |]
  end.
  destruct (Z.leb_spec (MAX_POSTS_PER_RUN cfg) 0); [discriminate |].
  destruct (sqlite_fails env (3 + steps w)); [discriminate |].
  destruct (has_key _ _); [discriminate |].
  destruct (andb _ _); [discriminate |].
  match goal with
  | |- context [DOMAIN_MAX_PER_24H cfg <=? ?c] =>
      destruct (Z.leb_spec (DOMAIN_MAX_PER_24H cfg) c); [discriminate |]
  end.
  intros _. split; [| reflexivity].
  repeat (apply andb_true_iff; split); try reflexivity;
    apply Z.ltb_lt; assumption.
Qed.

Lemma admitted_is_admissible_witness :
  let e := mkEntry "T1" "S1" "http://a/1" "" in
  let w := initial_world [] in
  admissible default_cfg calm_env e 3 w = true /\
  has_key (norm_hash calm_env (url e)) (sent_items w) = false.
Proof.
  intros e w.
  apply (admitted_is_admissible default_cfg calm_env e 3 w).
  vm_compute. reflexivity.
Defined.

(** X16.  With a working store the conditions are also sufficient: an item
    that meets them all is admitted. *)
Theorem admissible_is_admitted (cfg : Config) (env : Env) (e : Entry) (p : Z)
    (w : World) :
  store_works env ->
  admissible cfg env e p w = true ->
  fst (policy_check cfg env e p w) = Ret Admit.
Proof.
  intros Hstore Hadm.
  rewrite policy_check_verdict. cbv zeta.
  rewrite !Hstore. rewrite andb_false_r.
  unfold admissible in Hadm. cbv zeta in Hadm.
  change (1 + steps w)%nat with (S (steps w)) in Hadm.
  repeat (apply andb_true_iff in Hadm; destruct Hadm as [Hadm ?]).
  repeat match goal with
         | H : negb _ = true |- _ => apply negb_true_iff in H; rewrite H
         | H : (_ <? _) = true |- _ => apply Z.ltb_lt in H
         end.
  leb_cases; try lia. reflexivity.
Qed.

Lemma admissible_is_admitted_witness :
  fst (policy_check default_cfg calm_env (mkEntry "T1" "S1" "http://a/1" "") 3
         (initial_world [])) = Ret Admit.
Proof.
  apply (admissible_is_admitted default_cfg calm_env
           (mkEntry "T1" "S1" "http://a/1" "") 3 (initial_world [])).
  - intros n. reflexivity.
  - vm_compute. reflexivity.
Defined.

(** ** What a cycle may do to the table *)

Section TableRelation.

Variable R : Table -> Table -> Prop.
Hypothesis R_refl : forall t, R t t.
Hypothesis R_trans : forall t1 t2 t3, R t1 t2 -> R t2 t3 -> R t1 t3.
Hypothesis R_insert : forall r t, R t (insert_or_ignore r t).

Lemma respects_keeps {A} (m : M A) : keeps_table m -> respects R m.
Proof. intros H w. rewrite H. apply R_refl. Qed.

Lemma respects_bind {A B} (m : M A) (k : A -> M B) :
  respects R m -> (forall a, respects R (k a)) -> respects R (bind m k).
Proof.
  intros Hm Hk w. unfold bind. specialize (Hm w).
  destruct (m w) as [[a | e] w1]; cbn in *; [| exact Hm].
  exact (R_trans _ _ _ Hm (Hk a w1)).
Qed.

Lemma respects_try {A} (m : M A) : respects R m -> respects R (try_ m).
Proof.
  intros Hm w. unfold try_. specialize (Hm w).
  destruct (m w) as [o w1]. exact Hm.
Qed.

Lemma respects_mark_sent env u t : respects R (mark_sent env u t).
Proof.
  intros w. unfold mark_sent, now_utc, sqlite, bind, ask, emit, raise. cbn.
  destruct (sqlite_fails env (S (steps w))); cbn; [apply R_refl | apply R_insert].
Qed.

Lemma respects_process_entries cfg env src entries :
  forall p sent, respects R (process_entries cfg env src entries p sent).
Proof.
  induction entries as [| e rest IH]; intros p sent; cbn [process_entries].
  - apply respects_keeps, keeps_ret.
  - apply respects_bind; [apply respects_keeps, keeps_policy_check |].
    intros v.
    destruct v; try apply IH; try (apply respects_keeps, keeps_ret).
    apply respects_bind; [apply respects_keeps, keeps_safe_send |].
    intros [|].
    + apply respects_bind; [apply respects_mark_sent |]. intros _.
      apply respects_bind; [apply respects_keeps, keeps_emit |]. intros _.
      apply IH.
    + apply respects_bind; [apply respects_keeps, keeps_emit |]. intros _.
      apply IH.
Qed.

Lemma respects_process_source cfg env src p :
  respects R (process_source cfg env src p).
Proof.
  unfold process_source.
  apply respects_bind.
  - apply respects_try, respects_keeps. unfold fetch_feed_entries. frame.
  - intros [entries | ex]; [apply respects_process_entries |].
    apply respects_keeps. frame.
Qed.

Lemma respects_run_sources cfg env sources :
  forall p, respects R (run_sources cfg env sources p).
Proof.
  induction sources as [| s rest IH]; intros p; cbn [run_sources].
  - apply respects_keeps, keeps_ret.
  - destruct (p <=? 0); [apply respects_keeps, keeps_ret |].
    apply respects_bind; [apply respects_try, respects_process_source |].
    intros [sent | ex]; [apply IH |].
    apply respects_bind; [apply respects_keeps, keeps_emit |].
    intros _. apply IH.
Qed.

Lemma respects_main_job cfg env : respects R (main_job cfg env).
Proof.
  unfold main_job.
  apply respects_bind; [apply respects_keeps, keeps_emit |]. intros _.
  apply respects_bind.
  { apply respects_keeps. intros w. now rewrite load_sources_effect. }
  intros [| s ss]; [apply respects_keeps, keeps_emit |].
  apply respects_bind; [apply respects_keeps, keeps_in_night_mode |].
  intros [|]; [apply respects_keeps, keeps_emit |].
  apply respects_bind; [apply respects_keeps, keeps_count_sent |].
  intros n. destruct (_ <=? 0); [apply respects_keeps, keeps_emit |].
  apply respects_bind; [apply respects_run_sources |].
  intros left. apply respects_keeps, keeps_emit.
Qed.

End TableRelation.

(** X17.  A cycle keeps the primary key of the table a key, however it
    ends: when no two rows share a [url_hash] before [main_job], none do
    after it. *)
Theorem cycle_keeps_primary_key (cfg : Config) (env : Env) (w : World) :
  pk_unique (sent_items w) ->
  pk_unique (sent_items (snd (main_job cfg env w))).
Proof.
  apply (respects_main_job keeps_pk).
  - intros t H. exact H.
  - intros t1 t2 t3 H12 H23 H. exact (H23 (H12 H)).
  - intros r t H. now apply insert_or_ignore_pk.
Qed.

Lemma cycle_keeps_primary_key_witness :
  pk_unique (sent_items (snd (main_job default_cfg calm_env (initial_world [])))).
Proof.
  apply (cycle_keeps_primary_key default_cfg calm_env (initial_world [])).
  constructor.
Defined.

(** X18.  A cycle never deletes or changes a row: the table after
    [main_job] is the table before it with rows added at the end. *)
Theorem cycle_only_adds_rows (cfg : Config) (env : Env) (w : World) :
  exists added,
    sent_items (snd (main_job cfg env w)) = sent_items w ++ added.
Proof.
  apply (respects_main_job grown_from).
  - intros t. exists []. now rewrite app_nil_r.
  - intros t1 t2 t3 [a ->] [b ->]. exists (a ++ b). now rewrite app_assoc.
  - intros r t. unfold insert_or_ignore.
    destruct (has_key (url_hash r) t); [exists [] | exists [r]];
      [now rewrite app_nil_r | reflexivity].
Qed.

(** ** Recording and looking up *)

Lemma has_key_insert_other (h : string) (r : Row) (t : Table) :
  url_hash r <> h -> has_key h (insert_or_ignore r t) = has_key h t.
Proof.
  intros Hne. unfold insert_or_ignore.
  destruct (has_key (url_hash r) t); [reflexivity |].
  unfold has_key. rewrite existsb_app. cbn.
  destruct (String.eqb_spec (url_hash r) h); [contradiction |].
  now rewrite !orb_false_r.
Qed.

(** X19.  With a working store, a URL that has just been recorded is found
    by [already_sent], and recording it changes the answer for no URL with
    another hash. *)
Theorem recorded_url_is_found (env : Env) (u title_ : string) (w : World) :
  store_works env ->
  fst ((mark_sent env u title_;; already_sent env u) w) = Ret true /\
  forall u', norm_hash env u' <> norm_hash env u ->
    fst ((mark_sent env u title_;; already_sent env u') w) =
    fst (already_sent env u' w).
Proof.
  intros Hstore. unfold bind.
  rewrite (mark_sent_runs env u title_ w (Hstore _)). cbv zeta.
  split.
  - rewrite already_sent_runs. cbv zeta. cbn [sent_items steps trace].
    rewrite Hstore. cbn [fst]. f_equal.
    apply (insert_or_ignore_has_key (mkRow (norm_hash env u) u _ _ _)).
  - intros u' Hne. rewrite !already_sent_runs. cbv zeta.
    cbn [sent_items steps trace]. rewrite !Hstore. cbn [fst]. f_equal.
    apply has_key_insert_other. cbn. congruence.
Qed.

Lemma recorded_url_is_found_witness :
  let w := initial_world [] in
  fst ((mark_sent calm_env "http://a/1" "T1";; already_sent calm_env "http://a/1") w)
    = Ret true /\
  forall u', norm_hash calm_env u' <> norm_hash calm_env "http://a/1" ->
    fst ((mark_sent calm_env "http://a/1" "T1";; already_sent calm_env u') w) =
    fst (already_sent calm_env u' w).
Proof.
  intros w.
  apply (recorded_url_is_found calm_env "http://a/1" "T1" w).
  intros n. reflexivity.
Defined.

(** ** Counting *)

Lemma filter_length_le {A} (f : A -> bool) (l : list A) :
  (List.length (filter f l) <= List.length l)%nat.
Proof.
  induction l as [| a l IH]; simpl; [lia |].
  destruct (f a); simpl; lia.
Qed.

Lemma filter_length_mono {A} (f g : A -> bool) (l : list A) :
  (forall a, f a = true -> g a = true) ->
  (List.length (filter f l) <= List.length (filter g l))%nat.
Proof.
  intros Hfg. induction l as [| a l IH]; simpl; [lia |].
  destruct (f a) eqn:Ef.
  - rewrite (Hfg a Ef). simpl. lia.
  - destruct (g a); simpl; lia.
Qed.

(** X20.  The per-domain count of a window never exceeds the global count
    of the same window, which never exceeds the number of rows; a later
    cutoff never counts more; and rows stamped before the cutoff are not
    counted at all. *)
Theorem counts_are_ordered (domain : string) (c1 c2 : instant) (t old : Table) :
  c1 <= c2 ->
  Forall (fun r => ts r < c2) old ->
  count_domain_since domain c2 t <= count_since c2 t /\
  count_since c2 t <= count_since c1 t /\
  count_since c1 t <= Z.of_nat (List.length t) /\
  count_since c2 (t ++ old) = count_since c2 t.
Proof.
  intros Hc Hold. unfold count_domain_since, count_since.
  repeat split.
  - apply Nat2Z.inj_le, filter_length_mono.
    intros r H. apply andb_true_iff in H. tauto.
  - apply Nat2Z.inj_le, filter_length_mono.
    intros r H. apply Z.leb_le in H. apply Z.leb_le. lia.
  - apply Nat2Z.inj_le, filter_length_le.
  - rewrite filter_app, length_app.
    replace (filter (fun r => c2 <=? ts r) old) with (@nil Row);
      [simpl; lia |].
    induction Hold as [| r old Hr _ IH]; simpl; [reflexivity |].
    destruct (Z.leb_spec c2 (ts r)); [lia | exact IH].
Qed.

Lemma counts_are_ordered_witness :
  let t := [mkRow "h1" "http://a/1" "a" "T1" 500; mkRow "h2" "http://b/1" "b" "T2" 700] in
  let old := [mkRow "h0" "http://a/0" "a" "T0" 100] in
  count_domain_since "a" 600 t <= count_since 600 t /\
  count_since 600 t <= count_since 400 t /\
  count_since 400 t <= Z.of_nat (List.length t) /\
  count_since 600 (t ++ old) = count_since 600 t.
Proof.
  intros t old.
  apply (counts_are_ordered "a" 400 600 t old).
  - lia.
  - repeat constructor.
Defined.

(** ** Accounting for deliveries *)

Lemma admit_facts (cfg : Config) (env : Env) (e : Entry) (p : Z) (w : World) :
  fst (policy_check cfg env e p w) = Ret Admit ->
  0 < p /\ has_key (norm_hash env (url e)) (sent_items w) = false.
Proof.
  rewrite policy_check_verdict. cbv zeta.
  destruct (Z.leb_spec p 0); [discriminate |].
  destruct (str_empty (url e)); [discriminate |].
  destruct (night_at cfg env (steps w)); [discriminate |].
  destruct (sqlite_fails env (S (S (steps w)))); [discriminate |].
  destruct (_ <=? _); [discriminate |].
  destruct (_ <=? _); [discriminate |].
  destruct (sqlite_fails env (3 + steps w)); [discriminate |].
  destruct (has_key _ _); [discriminate |].
  intros _. split; [assumption | reflexivity].
Qed.

Lemma policy_raise_fault (cfg : Config) (env : Env) (e : Entry) (p : Z) (w : World)
    (ex : exn) :
  fst (policy_check cfg env e p w) = Raised ex ->
  exists n, sqlite_fails env n = true.
Proof.
  rewrite policy_check_verdict. cbv zeta.
  destruct (_ <=? _); [discriminate |].
  destruct (str_empty (url e)); [discriminate |].
  destruct (night_at cfg env (steps w)); [discriminate |].
  destruct (sqlite_fails env (S (S (steps w)))) eqn:E1; [eauto |].
  destruct (_ <=? _); [discriminate |].
  destruct (_ <=? _); [discriminate |].
  destruct (sqlite_fails env (3 + steps w)) eqn:E2; [eauto |].
  destruct (has_key _ _); [discriminate |].
  destruct (str_empty (domain_from_url env (url e))); cbn [negb andb].
  - destruct (_ <=? _); discriminate.
  - destruct (sqlite_fails env (5 + steps w)) eqn:E3; [eauto |].
    destruct (_ <=? _); discriminate.
Qed.

Lemma safe_send_html_returns (env : Env) (text : string) (w : World) :
  exists ok, fst (safe_send_html env text w) = Ret ok.
Proof.
  cbv [safe_send_html send_message_telegram bind emit ask log sleep ret];
    cbn [sent_items steps trace].
  destruct (telegram_post env (steps w) text); cbn [fst snd sent_items steps trace];
    eauto.
  destruct (telegram_post env (S (steps w)) text); cbn; eauto.
Qed.

(** What [mark_sent] does, whether SQLite works or not. *)
Lemma mark_sent_outcome (env : Env) (u title_ : string) (w : World) :
  let r := mkRow (norm_hash env u) u (domain_from_url env u) title_
                 (utc_now env (steps w)) in
  mark_sent env u title_ w =
  if sqlite_fails env (S (steps w))
  then (Raised SqliteError,
        mkWorld (sent_items w) (S (S (steps w))) (trace w ++ [EvSql (SqlInsert r)]))
  else (Ret tt,
        mkWorld (insert_or_ignore r (sent_items w)) (S (S (steps w)))
                (trace w ++ [EvSql (SqlInsert r)])).
Proof.
  intros r. unfold mark_sent, now_utc, sqlite, bind, ask, emit, raise. cbn.
  destruct (sqlite_fails env (S (steps w))); reflexivity.
Qed.

Lemma process_entries_accounting (cfg : Config) (env : Env) (src : Source)
    (entries : list Entry) :
  forall (p sent : Z) (w : World),
  exists added,
    sent_items (snd (process_entries cfg env src entries p sent w)) =
      sent_items w ++ added /\
    Z.of_nat (List.length added) <= Z.max 0 p /\
    match fst (process_entries cfg env src entries p sent w) with
    | Ret r => r = sent + Z.of_nat (List.length added)
    | Raised _ => exists n, sqlite_fails env n = true
    end.
Proof.
  induction entries as [| e rest IH]; intros p sent w.
  - exists []. cbn. rewrite app_nil_r. repeat split; lia.
  - remember (process_entries cfg env src (e :: rest) p sent w) as run eqn:Hrun.
    cbn [process_entries] in Hrun. unfold bind at 1 in Hrun.
    pose proof (keeps_policy_check cfg env e p w) as Hk1.
    pose proof (admit_facts cfg env e p w) as Hadm.
    pose proof (policy_raise_fault cfg env e p w) as Hfault.
    destruct (policy_check cfg env e p w) as [[v | ex] w1].
    2:{ subst run. exists []. cbn [fst snd] in *. rewrite app_nil_r.
        split; [exact Hk1 |]. split; [cbn; lia |]. exact (Hfault ex eq_refl). }
    cbn [fst snd] in Hk1, Hadm.
    destruct v;
      try solve [subst run; exists []; cbn; rewrite Hk1, app_nil_r; repeat split; lia];
      try solve [subst run; destruct (IH p sent w1) as [added [Ht [Hn Hr]]];
                 exists added; rewrite <- Hk1; auto].
    destruct (Hadm eq_refl) as [Hp Hkey]. clear Hadm Hfault.
    unfold bind at 1 in Hrun.
    pose proof (keeps_safe_send env (render_message env src e) w1) as Hk2.
    destruct (safe_send_html_returns env (render_message env src e) w1) as [ok Hok].
    destruct (safe_send_html env (render_message env src e) w1) as [o w2].
    cbn [fst snd] in Hk2, Hok. subst o.
    destruct ok.
    + unfold bind at 1 in Hrun. rewrite mark_sent_outcome in Hrun. cbv zeta in Hrun.
      destruct (sqlite_fails env (S (steps w2))) eqn:Ef.
      * subst run. exists []. cbn [fst snd sent_items]. rewrite Hk2, Hk1, app_nil_r.
        split; [reflexivity |]. split; [cbn; lia |]. eauto.
      * unfold bind at 1 in Hrun. unfold sleep at 1, emit at 1 in Hrun.
        cbn [sent_items steps trace] in Hrun.
        set (w4 := mkWorld _ _ _) in Hrun.
        destruct (IH (p - 1) (sent + 1) w4) as [added [Ht [Hn Hr]]].
        assert (Hrow : sent_items w4 =
                  sent_items w ++
                  [mkRow (norm_hash env (url e)) (url e)
                         (domain_from_url env (url e)) (shown_title env e)
                         (utc_now env (steps w2))]).
        { subst w4. cbn [sent_items]. unfold insert_or_ignore. cbn [url_hash].
          rewrite Hk2, Hk1, Hkey. reflexivity. }
        rewrite Hrow in Ht. subst run.
        eexists (_ :: added). rewrite Ht, <- app_assoc. split; [reflexivity |].
        cbn [List.length]. split; [lia |].
        destruct (fst (process_entries cfg env src rest (p - 1) (sent + 1) w4));
          [lia | exact Hr].
    + unfold bind at 1 in Hrun. unfold sleep at 1, emit at 1 in Hrun.
      cbn [sent_items steps trace] in Hrun.
      set (w3 := mkWorld _ _ _) in Hrun.
      destruct (IH p sent w3) as [added [Ht [Hn Hr]]].
      assert (Hw3 : sent_items w3 = sent_items w)
        by (subst w3; cbn [sent_items]; congruence).
      subst run. exists added. rewrite <- Hw3. auto.
Qed.

(** X21.  Whatever happens, a source adds at most [posts_left] rows to the
    table (none when [posts_left] is not positive), and adds them at the
    end.  When [process_source] returns, the number it returns is the number
    of rows it added; when it raises, some statement sent to SQLite has
    failed. *)
Theorem source_stays_within_budget (cfg : Config) (env : Env) (src : Source)
    (p : Z) (w : World) :
  exists added,
    sent_items (snd (process_source cfg env src p w)) = sent_items w ++ added /\
    Z.of_nat (List.length added) <= Z.max 0 p /\
    match fst (process_source cfg env src p w) with
    | Ret sent => sent = Z.of_nat (List.length added)
    | Raised _ => exists n, sqlite_fails env n = true
    end.
Proof.
  remember (process_source cfg env src p w) as run eqn:Hrun.
  unfold process_source, fetch_feed_entries in Hrun.
  cbv [bind try_ emit ask raise ret log] in Hrun.
  cbn [sent_items steps trace] in Hrun.
  destruct (feedparser_parse env (steps w) (src_url src)) as [raws |].
  - set (w1 := mkWorld _ _ _) in Hrun.
    destruct (process_entries_accounting cfg env src (feed_items raws) p 0 w1)
      as [added [Ht [Hn Hr]]].
    subst run. exists added.
    destruct (process_entries cfg env src (feed_items raws) p 0 w1) as [o w2].
    cbn [fst snd] in *. split; [exact Ht |]. split; [exact Hn |].
    destruct o; [lia | exact Hr].
  - subst run. exists []. cbn. rewrite app_nil_r. repeat split; lia.
Qed.

Lemma process_source_accounting (cfg : Config) (env : Env) (src : Source)
    (p : Z) (w : World) :
  store_works env ->
  exists added w',
    process_source cfg env src p w = (Ret (Z.of_nat (List.length added)), w') /\
    sent_items w' = sent_items w ++ added /\
    Z.of_nat (List.length added) <= Z.max 0 p.
Proof.
  intros Hstore.
  unfold process_source, fetch_feed_entries.
  cbv [bind try_ emit ask raise ret log]. cbn [sent_items steps trace].
  destruct (feedparser_parse env (steps w) (src_url src)) as [raws |].
  - set (w1 := mkWorld _ _ _).
    destruct (process_entries_accounting cfg env src (feed_items raws) p 0 w1)
      as [added [Ht [Hn Hr]]].
    destruct (process_entries cfg env src (feed_items raws) p 0 w1)
      as [[sent | ex] w2]; cbn [fst snd] in *.
    + exists added, w2. subst sent. auto.
    + destruct Hr as [n Hf]. rewrite Hstore in Hf. discriminate.
  - eexists [], _. split; [reflexivity |].
    cbn. rewrite app_nil_r. split; [reflexivity | lia].
Qed.

Lemma run_sources_accounting (cfg : Config) (env : Env) (sources : list Source) :
  store_works env ->
  forall (p : Z) (w : World),
    exists added left w',
      run_sources cfg env sources p w = (Ret left, w') /\
      sent_items w' = sent_items w ++ added /\
      left + Z.of_nat (List.length added) = p /\
      Z.of_nat (List.length added) <= Z.max 0 p.
Proof.
  intros Hstore.
  induction sources as [| s rest IH]; intros p w.
  - exists [], p, w. cbn. rewrite app_nil_r. repeat split; lia.
  - cbn [run_sources].
    destruct (Z.leb_spec p 0) as [Hle | Hgt].
    + exists [], p, w. cbn. rewrite app_nil_r. repeat split; lia.
    + destruct (process_source_accounting cfg env s p w Hstore)
        as [added1 [w1 [Hrun1 [Ht1 Hn1]]]].
      unfold bind at 1. unfold try_ at 1. rewrite Hrun1.
      destruct (IH (p - Z.of_nat (List.length added1)) w1) as
        [added2 [left [w2 [Hrun2 [Ht2 [Hsum Hleft]]]]]].
      exists (added1 ++ added2), left, w2.
      split; [exact Hrun2 |]. split; [now rewrite Ht2, Ht1, app_assoc |].
      rewrite length_app. split; lia.
Qed.

(** X22.  With a working store, a cycle adds at most [MAX_POSTS_PER_RUN]
    rows to the table, and at most as many as the daily cap left room for
    when the cycle counted the rows of the last 24 hours. *)
Theorem cycle_stays_within_caps (cfg : Config) (env : Env) (w : World) :
  store_works env ->
  exists added,
    sent_items (snd (main_job cfg env w)) = sent_items w ++ added /\
    Z.of_nat (List.length added) <= Z.max 0 (MAX_POSTS_PER_RUN cfg) /\
    Z.of_nat (List.length added) <=
      Z.max 0 (DAILY_MAX_POSTS cfg
               - count_since (cap_check_instant env w - hours24) (sent_items w)).
Proof.
  intros Hstore.
  assert (Hnone : forall t : Table,
            t = sent_items w ->
            exists added,
              t = sent_items w ++ added /\
              Z.of_nat (List.length added) <= Z.max 0 (MAX_POSTS_PER_RUN cfg) /\
              Z.of_nat (List.length added) <=
                Z.max 0 (DAILY_MAX_POSTS cfg
                         - count_since (cap_check_instant env w - hours24)
                                       (sent_items w))).
  { intros t ->. exists []. rewrite app_nil_r. cbn. repeat split; lia. }
  remember (main_job cfg env w) as run eqn:Hrun.
  rewrite main_job_after_load in Hrun. cbv zeta in Hrun.
  pose proof (load_sources_effect env (SOURCES_FILE cfg)
    (mkWorld (sent_items w) (steps w) (trace w ++ [EvLog INFO JobStarted]))) as Hload.
  cbn [sent_items steps trace] in Hload.
  destruct (load_sources_from_yaml env (SOURCES_FILE cfg) _) as [[[| s ss] | e] w1];
    cbn [snd] in Hload; subst w1.
  - subst run. apply Hnone. reflexivity.
  - unfold bind at 1 in Hrun. rewrite in_night_mode_reads_the_hour in Hrun.
    cbn [sent_items steps trace] in Hrun.
    destruct (night_window _ _ _).
    + subst run. apply Hnone. reflexivity.
    + unfold bind at 1 in Hrun. rewrite count_sent_last_24h_runs in Hrun.
      cbn [sent_items steps trace] in Hrun. cbv zeta in Hrun.
      rewrite Hstore in Hrun.
      unfold cap_check_instant. cbn [Nat.add].
      set (n := count_since _ (sent_items w)) in *.
      destruct (Z.leb_spec (Z.max 0 (DAILY_MAX_POSTS cfg - n)) 0) as [Hle | Hgt].
      * subst run. apply Hnone. reflexivity.
      * unfold bind at 1 in Hrun.
        set (w2 := mkWorld _ _ _) in Hrun.
        destruct (run_sources_accounting cfg env (s :: ss) Hstore
                    (Z.min (MAX_POSTS_PER_RUN cfg) (Z.max 0 (DAILY_MAX_POSTS cfg - n)))
                    w2)
          as [added [left [w3 [Hrun3 [Ht [Hsum Hleft]]]]]].
        rewrite Hrun3 in Hrun. subst run. cbn [snd log emit sent_items].
        exists added. split; [exact Ht |]. split; lia.
  - subst run. apply Hnone. reflexivity.
Qed.

Lemma cycle_stays_within_caps_witness :
  let w := initial_world [] in
  exists added,
    sent_items (snd (main_job default_cfg calm_env w)) = sent_items w ++ added /\
    Z.of_nat (List.length added) <= Z.max 0 (MAX_POSTS_PER_RUN default_cfg) /\
    Z.of_nat (List.length added) <=
      Z.max 0 (DAILY_MAX_POSTS default_cfg
               - count_since (cap_check_instant calm_env w - hours24) (sent_items w)).
Proof.
  intros w.
  apply (cycle_stays_within_caps default_cfg calm_env w).
  intros n. reflexivity.
Defined.

(** ** A delivery that succeeds *)

(** X23.  When an admitted item is delivered and SQLite accepts the
    insert, the loop records a row for it (its hash, its URL, its domain,
    the title shown in the message, the time of the insert) at the end of
    the table, sleeps the minimum delay and goes on with the next item with
    one post less to make and one more sent. *)
Theorem delivery_is_recorded (cfg : Config) (env : Env) (src : Source)
    (e : Entry) (rest : list Entry) (p sent : Z) (w w1 w2 : World) :
  policy_check cfg env e p w = (Ret Admit, w1) ->
  safe_send_html env (render_message env src e) w1 = (Ret true, w2) ->
  sqlite_fails env (S (steps w2)) = false ->
  let row := mkRow (norm_hash env (url e)) (url e) (domain_from_url env (url e))
                   (shown_title env e) (utc_now env (steps w2)) in
  process_entries cfg env src (e :: rest) p sent w =
  process_entries cfg env src rest (p - 1) (sent + 1)
    (mkWorld (sent_items w ++ [row]) (S (S (steps w2)))
             (trace w2 ++ [EvSql (SqlInsert row); EvSleep MinDelay])).
Proof.
  intros Hcheck Hsend Hok row.
  assert (Hk1 : sent_items w1 = sent_items w).
  { pose proof (keeps_policy_check cfg env e p w) as H. now rewrite Hcheck in H. }
  assert (Hk2 : sent_items w2 = sent_items w1).
  { pose proof (keeps_safe_send env (render_message env src e) w1) as H.
    now rewrite Hsend in H. }
  assert (Hkey : has_key (norm_hash env (url e)) (sent_items w) = false).
  { apply (admit_facts cfg env e p w). now rewrite Hcheck. }
  cbn [process_entries]. unfold bind at 1. rewrite Hcheck.
  unfold bind at 1. rewrite Hsend.
  unfold bind at 1. rewrite mark_sent_outcome, Hok. cbv zeta.
  unfold bind at 1. unfold sleep at 1, emit at 1. cbn [sent_items steps trace].
  unfold insert_or_ignore. cbn [url_hash].
  rewrite Hk2, Hk1, Hkey, <- app_assoc. reflexivity.
Qed.

Lemma delivery_is_recorded_witness :
  let env := calm_env in
  let src := mkSource (YStr "A") "DEV" in
  let e := mkEntry "T1" "S1" "http://a/1" "" in
  let rest := [mkEntry "T2" "" "http://a/2" ""] in
  let w := initial_world [] in
  let w1 := snd (policy_check default_cfg env e 3 w) in
  let w2 := snd (safe_send_html env (render_message env src e) w1) in
  let row := mkRow (norm_hash env (url e)) (url e) (domain_from_url env (url e))
                   (shown_title env e) (utc_now env (steps w2)) in
  process_entries default_cfg env src (e :: rest) 3 0 w =
  process_entries default_cfg env src rest (3 - 1) (0 + 1)
    (mkWorld (sent_items w ++ [row]) (S (S (steps w2)))
             (trace w2 ++ [EvSql (SqlInsert row); EvSleep MinDelay])).
Proof.
  intros env src e rest w w1 w2.
  apply (delivery_is_recorded default_cfg env src e rest 3 0 w w1 w2).
  - vm_compute. reflexivity.
  - vm_compute. reflexivity.
  - reflexivity.
Defined.

(** X24.  When an admitted item is delivered and the insert then fails,
    [process_source] stops there with the ledger error: the item has gone
    out, the table does not hold it, and no later item of the source is
    looked at. *)
Theorem delivered_but_not_recorded (cfg : Config) (env : Env) (src : Source)
    (e : Entry) (rest : list Entry) (p sent : Z) (w w1 w2 : World) :
  policy_check cfg env e p w = (Ret Admit, w1) ->
  safe_send_html env (render_message env src e) w1 = (Ret true, w2) ->
  sqlite_fails env (S (steps w2)) = true ->
  let row := mkRow (norm_hash env (url e)) (url e) (domain_from_url env (url e))
                   (shown_title env e) (utc_now env (steps w2)) in
  process_entries cfg env src (e :: rest) p sent w =
  (Raised SqliteError,
   mkWorld (sent_items w) (S (S (steps w2)))
           (trace w2 ++ [EvSql (SqlInsert row)])) /\
  has_key (norm_hash env (url e)) (sent_items w) = false.
Proof.
  intros Hcheck Hsend Hfail row.
  assert (Hk1 : sent_items w1 = sent_items w).
  { pose proof (keeps_policy_check cfg env e p w) as H. now rewrite Hcheck in H. }
  assert (Hk2 : sent_items w2 = sent_items w1).
  { pose proof (keeps_safe_send env (render_message env src e) w1) as H.
    now rewrite Hsend in H. }
  split; [| apply (admit_facts cfg env e p w); now rewrite Hcheck].
  cbn [process_entries]. unfold bind at 1. rewrite Hcheck.
  unfold bind at 1. rewrite Hsend.
  unfold bind at 1. rewrite mark_sent_outcome, Hfail. cbv zeta.
  rewrite Hk2, Hk1. reflexivity.
Qed.

Lemma delivered_but_not_recorded_witness :
  let env := faulty_env 8 in
  let src := mkSource (YStr "A") "DEV" in
  let e := mkEntry "T1" "S1" "http://a/1" "" in
  let rest := [mkEntry "T2" "" "http://a/2" ""] in
  let w := initial_world [] in
  let w1 := snd (policy_check default_cfg env e 3 w) in
  let w2 := snd (safe_send_html env (render_message env src e) w1) in
  let row := mkRow (norm_hash env (url e)) (url e) (domain_from_url env (url e))
                   (shown_title env e) (utc_now env (steps w2)) in
  process_entries default_cfg env src (e :: rest) 3 0 w =
  (Raised SqliteError,
   mkWorld (sent_items w) (S (S (steps w2)))
           (trace w2 ++ [EvSql (SqlInsert row)])) /\
  has_key (norm_hash env (url e)) (sent_items w) = false.
Proof.
  intros env src e rest w w1 w2.
  apply (delivered_but_not_recorded default_cfg env src e rest 3 0 w w1 w2).
  - vm_compute. reflexivity.
  - vm_compute. reflexivity.
  - reflexivity.
Defined.

(** ** Items passed over *)

Lemma grows_policy_check_quiet cfg env e p : grows quiet (policy_check cfg env e p).
Proof. unfold policy_check. frame. Qed.

(** X25.  An item passed over (no URL, already recorded, or its domain at
    its cap) costs nothing: the checks have only logged and queried, with no
    post and no sleep, the table is as it was, and the loop goes on with the
    next item with the same run budget and the same count of sent items. *)
Theorem skipped_item_costs_nothing (cfg : Config) (env : Env) (src : Source)
    (e : Entry) (rest : list Entry) (p sent : Z) (w w1 : World) (v : Verdict) :
  policy_check cfg env e p w = (Ret v, w1) ->
  is_skip v = true ->
  process_entries cfg env src (e :: rest) p sent w =
    process_entries cfg env src rest p sent w1 /\
  sent_items w1 = sent_items w /\
  forallb quiet (new_events (policy_check cfg env e p) w) = true.
Proof.
  intros Hcheck Hskip. split; [| split].
  - cbn [process_entries]. unfold bind at 1. rewrite Hcheck.
    destruct v; try discriminate; reflexivity.
  - pose proof (keeps_policy_check cfg env e p w) as H. now rewrite Hcheck in H.
  - apply grows_new_events, grows_policy_check_quiet.
Qed.

Lemma skipped_item_costs_nothing_witness :
  let src := mkSource (YStr "A") "DEV" in
  let e := mkEntry "T1" "S1" "http://a/1" "" in
  let rest := [mkEntry "T2" "" "http://a/2" ""] in
  let w := initial_world [mkRow "http://a/1" "http://a/1" "a" "T1" 900] in
  let w1 := snd (policy_check default_cfg calm_env e 3 w) in
  process_entries default_cfg calm_env src (e :: rest) 3 0 w =
    process_entries default_cfg calm_env src rest 3 0 w1 /\
  sent_items w1 = sent_items w /\
  forallb quiet (new_events (policy_check default_cfg calm_env e 3) w) = true.
Proof.
  intros src e rest w w1.
  apply (skipped_item_costs_nothing default_cfg calm_env src e rest 3 0 w w1
           SkipDuplicate).
  - vm_compute. reflexivity.
  - reflexivity.
Defined.

(** ** Windows off the dial *)

(** X26.  For the hours a clock shows, 0 to 23: a window that starts at 24
    or later and ends at 0 or earlier is never in force, and a window that
    starts at 0 or earlier and ends at 24 or later always is. *)
Theorem window_off_the_dial (start end_ start' end' h : Z) :
  0 <= h < 24 ->
  24 <= start -> end_ <= 0 ->
  start' <= 0 -> 24 <= end' ->
  night_window start end_ h = false /\
  night_window start' end' h = true.
Proof.
  intros Hh H1 H2 H3 H4. unfold night_window.
  destruct (Z.ltb_spec start end_), (Z.leb_spec start h), (Z.ltb_spec h end_),
    (Z.ltb_spec start' end'), (Z.leb_spec start' h), (Z.ltb_spec h end');
    cbn; try (split; reflexivity); lia.
Qed.

Lemma window_off_the_dial_witness :
  night_window 24 0 12 = false /\ night_window 0 24 12 = true.
Proof. apply (window_off_the_dial 24 0 0 24 12); lia. Defined.

(** ** The summary in the message *)

(** The message is its header, the summary when one is shown, and the
    link. *)
Lemma render_message_parts (env : Env) (src : Source) (e : Entry) :
  render_message env src e =
  ((if str_empty (summary_html env e)
    then message_head env src e
    else message_head env src e ++ newline ++ newline ++ summary_html env e)
   ++ message_link e)%string.
Proof.
  unfold render_message, summary_html, message_head, message_link. cbv zeta.
  destruct (str_empty (escape_html_text _)); reflexivity.
Qed.

Lemma shown_summary_kept (env : Env) (e : Entry) :
  suppressed env e = false -> shown_summary env e = clean_text env (summary e).
Proof.
  unfold suppressed, shown_summary. cbv zeta. intros H. now rewrite H.
Qed.

Lemma replace_char_nonempty (old : ascii) (new s : string) :
  str_empty new = false -> str_empty s = false ->
  str_empty (replace_char old new s) = false.
Proof.
  intros Hnew Hs. destruct s as [| c r]; [discriminate |]. simpl.
  destruct (Ascii.eqb c old); [| reflexivity].
  destruct new; [discriminate | reflexivity].
Qed.

Lemma escape_html_text_nonempty (s : string) :
  str_empty s = false -> str_empty (escape_html_text s) = false.
Proof.
  intros Hs. rewrite escape_html_text_unfold.
  repeat apply replace_char_nonempty; auto.
Qed.

Lemma str_empty_length (s : string) :
  (0 < String.length s)%nat -> str_empty s = false.
Proof. destruct s; simpl; [lia | reflexivity]. Qed.



